(** * UNI_AI: retrieval and orchestration core

    A shallow embedding of [scripts/rag.py], [scripts/embeddings.py] and
    [mcp/orchestrator.py], with the properties of the retrieval-and-
    orchestration subsystem proved (or refuted) over it.

    Conventions of the embedding:
    - a Python [str] is a [string]; its characters are the code points
      0..255.  [str.lower], [str.split], [\w] and [\b] are modelled on that
      whole range as Python defines them.  [str.upper] leaves that range
      (the upper case of U+00FF is U+0178, that of U+00DF is two letters),
      so its result is a list of code points.
    - a Python [float] is a binary64 primitive [float]; its arithmetic is
      the IEEE arithmetic of the kernel.  A NumPy [float32] is a binary64
      float that [round32] leaves unchanged, and a [float32] operation is
      the binary64 operation followed by [round32].
    - a Python [dict] with string keys is a [gmap string _].
    - a call that may raise returns an [outcome]; [try/except Exception]
      is [catch]. *)

From Stdlib Require Import ZArith NArith Ascii String List Bool Lia.
From Stdlib Require Import Floats.PrimFloat Floats.SpecFloat Floats.FloatOps.
From Stdlib Require Uint63.
From stdpp Require Import base option list strings gmap pretty.

Set Warnings "-inexact-float,-clear-no-such-hyp".
Local Open Scope string_scope.
Local Open Scope list_scope.

(** ** Python strings *)

Module PyStr.

Definition code (c : ascii) : N := N_of_ascii c.

Definition in_range (lo hi : N) (c : ascii) : bool :=
  ((lo <=? code c) && (code c <=? hi))%N.

(** [[A-Z]] and [[a-z]] of the [re] module. *)
Definition is_upper (c : ascii) : bool := in_range 65 90 c.
Definition is_lower (c : ascii) : bool := in_range 97 122 c.
Definition is_digit (c : ascii) : bool := in_range 48 57 c.

(** [str.isspace] on one character: TAB..CR, FS..US, space, NEL, NBSP. *)
Definition is_space (c : ascii) : bool :=
  in_range 9 13 c || in_range 28 32 c || (code c =? 133)%N || (code c =? 160)%N.

(** [\w] of a [str] pattern: alphanumeric (in the Unicode sense) or [_]. *)
Definition is_word (c : ascii) : bool :=
  is_upper c || is_lower c || is_digit c || (code c =? 95)%N
  || (code c =? 170)%N || (code c =? 178)%N || (code c =? 179)%N
  || (code c =? 181)%N || (code c =? 185)%N || (code c =? 186)%N
  || in_range 188 190 c || in_range 192 214 c || in_range 216 246 c
  || in_range 248 255 c.

Definition lower_char (c : ascii) : ascii :=
  if is_upper c || in_range 192 214 c || in_range 216 222 c
  then ascii_of_N (code c + 32) else c.

(** The upper case of one character, as code points: the micro sign becomes
    the Greek capital mu, the sharp s becomes [SS], y with diaeresis becomes
    U+0178; the division sign has no case. *)
Definition upper_char (c : ascii) : list N :=
  if is_lower c || in_range 224 246 c || in_range 248 254 c then [(code c - 32)%N]
  else if (code c =? 181)%N then [924%N]
  else if (code c =? 223)%N then [83%N; 83%N]
  else if (code c =? 255)%N then [376%N]
  else [code c].

(** [s.lower()] and [s.upper()]. *)
Fixpoint lower (s : string) : string :=
  match s with
  | EmptyString => EmptyString
  | String c r => String (lower_char c) (lower r)
  end.

Fixpoint upper (s : string) : list N :=
  match s with
  | EmptyString => []
  | String c r => upper_char c ++ upper r
  end.

(** [s[:n]]  for [n >= 0]. *)
Fixpoint take (n : nat) (s : string) : string :=
  match n, s with
  | S n', String c r => String c (take n' r)
  | _, _ => EmptyString
  end.

Fixpoint rev_onto (acc s : string) : string :=
  match s with
  | EmptyString => acc
  | String c r => rev_onto (String c acc) r
  end.

(** [s.split()]: maximal runs of non-whitespace characters.  [cur] holds the
    characters of the token being read, last one first. *)
Fixpoint split_from (cur : string) (s : string) : list string :=
  match s with
  | EmptyString =>
      match cur with
      | EmptyString => []
      | _ => [rev_onto EmptyString cur]
      end
  | String c r =>
      if is_space c then
        match cur with
        | EmptyString => split_from EmptyString r
        | _ => rev_onto EmptyString cur :: split_from EmptyString r
        end
      else split_from (String c cur) r
  end.

Definition split (s : string) : list string := split_from EmptyString s.

(** [s.startswith(p)]. *)
Fixpoint starts_with (p s : string) : bool :=
  match p, s with
  | EmptyString, _ => true
  | String a p', String b s' => Ascii.eqb a b && starts_with p' s'
  | String _ _, EmptyString => false
  end.

(** [sub in s]. *)
Fixpoint contains (sub s : string) : bool :=
  starts_with sub s
  || match s with
     | EmptyString => false
     | String _ r => contains sub r
     end.

(** [sep.join(parts)]. *)
Fixpoint join (sep : string) (parts : list string) : string :=
  match parts with
  | [] => EmptyString
  | [p] => p
  | p :: rest => p +:+ sep +:+ join sep rest
  end.

(** [c * n] for a one-character string [c]. *)
Fixpoint repeat_char (c : ascii) (n : nat) : string :=
  match n with
  | O => EmptyString
  | S n' => String c (repeat_char c n')
  end.

(** *** The two patterns of [should_use_rag] *)

(** [[a-z]*[A-Z]] anchored at the head of [s]. *)
Fixpoint lowers_then_upper (s : string) : bool :=
  match s with
  | EmptyString => false
  | String c r =>
      if is_upper c then true
      else if is_lower c then lowers_then_upper r
      else false
  end.

(** [[A-Z][a-z]+[A-Z]] anchored at the head of [s]. *)
Definition camel_here (s : string) : bool :=
  match s with
  | String c1 (String c2 r) => is_upper c1 && is_lower c2 && lowers_then_upper r
  | _ => false
  end.

(** [re.search(r'[A-Z][a-z]+[A-Z]', s)] finds a match. *)
Fixpoint search_camel (s : string) : bool :=
  camel_here s
  || match s with
     | EmptyString => false
     | String _ r => search_camel r
     end.

(** The longest run [[A-Z]*] at the head of [s]: its length and what follows. *)
Fixpoint upper_run (s : string) : nat * string :=
  match s with
  | String c r =>
      if is_upper c then let '(n, rest) := upper_run r in (S n, rest)
      else (O, s)
  | EmptyString => (O, s)
  end.

(** [[A-Z]{2,}\b] anchored at the head of [s].  The run is taken whole: a
    shorter one would end before an upper-case letter, where [\b] fails. *)
Definition acronym_here (s : string) : bool :=
  let '(n, rest) := upper_run s in
  (2 <=? n)%nat
  && match rest with
     | EmptyString => true
     | String c _ => negb (is_word c)
     end.

(** [re.search(r'\b[A-Z]{2,}\b', s)] finds a match at or after the current
    position; [prev_word] tells whether the character before it is a word
    character (false at the start of the string). *)
Fixpoint search_acronym_from (prev_word : bool) (s : string) : bool :=
  match s with
  | EmptyString => false
  | String c r =>
      (negb prev_word && acronym_here s) || search_acronym_from (is_word c) r
  end.

Definition search_acronym (s : string) : bool := search_acronym_from false s.

End PyStr.

(** ** The retrieval decision: [MCPOrchestrator.should_use_rag] *)

Module Decision.
Import PyStr.

Definition exam_keywords : list string :=
  [ "exam"; "question"; "quiz"; "test"; "assignment";
    "homework"; "cat"; "past paper"; "previous"; "mark";
    "define"; "explain"; "describe"; "discuss"; "analyze";
    "solve"; "calculate"; "write"; "design"; "implement" ].

Definition context_words : list string := [ "unit"; "course"; "year"; "paper" ].

(** [float(n)] for a small non-negative [int]. *)
Definition float_of_nat (n : nat) : float :=
  PrimFloat.of_uint63 (Uint63.of_Z (Z.of_nat n)).

(** [min(a, b)] of Python: the first argument unless the second is smaller. *)
Definition py_min (a b : float) : float := if PrimFloat.ltb b a then b else a.

(** Factor 1: query length. *)
Definition length_factor (query : string) (score : float) : float :=
  let query_length := length (split query) in
  if (10 <? query_length)%nat then (score + 0.2)%float
  else if (5 <? query_length)%nat then (score + 0.1)%float
  else score.

(** Factor 2: exam keywords. *)
Definition keyword_factor (query : string) (score : float) : float :=
  let query_lower := lower query in
  let exam_keyword_count :=
    length (List.filter (fun kw => contains kw query_lower) exam_keywords) in
  if (0 <? exam_keyword_count)%nat
  then (score + py_min 0.3 (float_of_nat exam_keyword_count * 0.1))%float
  else score.

(** Factor 3: technical terms, first the CamelCase test, then the acronym
    test. *)
Definition camel_factor (query : string) (score : float) : float :=
  if search_camel query then (score + 0.15)%float else score.

Definition acronym_factor (query : string) (score : float) : float :=
  if search_acronym query then (score + 0.15)%float else score.

(** Factor 4: specificity. *)
Definition specificity_factor (query : string) (score : float) : float :=
  let query_lower := lower query in
  if existsb (fun word => contains word query_lower) context_words
  then (score + 0.2)%float else score.

Definition should_use_rag (use_rag_threshold : float) (query : string)
  : bool * float :=
  let score := 0%float in
  let max_score := 0%float in
  let max_score := (max_score + 0.2)%float in
  let score := length_factor query score in
  let max_score := (max_score + 0.3)%float in
  let score := keyword_factor query score in
  let max_score := (max_score + 0.3)%float in
  let score := camel_factor query score in
  let score := acronym_factor query score in
  let max_score := (max_score + 0.2)%float in
  let score := specificity_factor query score in
  (* Normalize confidence *)
  let confidence :=
    if PrimFloat.ltb 0 max_score then (score / max_score)%float else 0%float in
  let use_rag := PrimFloat.leb use_rag_threshold confidence in
  (use_rag, confidence).

Definition default_threshold : float := 0.5%float.

End Decision.

(** ** Exceptions, values and documents *)

Inductive exn : Set :=
  | AttributeError | TypeError | ValueError | IndexError
  | AssertionError | OverflowError | ProviderError.

(** The result of a call: a value, or an exception on its way to the caller. *)
Inductive outcome (A : Type) : Type :=
  | Returned (a : A)
  | Raised (e : exn).
Arguments Returned {A} a.
Arguments Raised {A} e.

#[global] Instance outcome_ret : MRet outcome := fun A a => Returned a.
#[global] Instance outcome_bind : MBind outcome := fun A B f o =>
  match o with
  | Returned a => f a
  | Raised e => Raised e
  end.

(** [try: body  except Exception: return handler]. *)
Definition catch {A : Type} (body : outcome A) (handler : A) : A :=
  match body with
  | Returned a => a
  | Raised _ => handler
  end.

(** [l[i]] with Python's negative indices. *)
Definition py_index {A : Type} (l : list A) (i : Z) : outcome A :=
  let n := Z.of_nat (length l) in
  let j := if (i <? 0)%Z then (n + i)%Z else i in
  if (j <? 0)%Z then Raised IndexError
  else match l !! Z.to_nat j with
       | Some a => Returned a
       | None => Raised IndexError
       end.

(** [l[:k]]. *)
Definition py_slice_to {A : Type} (l : list A) (k : Z) : list A :=
  if (k <? 0)%Z then firstn (Z.to_nat (Z.of_nat (length l) + k)) l
  else firstn (Z.to_nat k) l.

(** The values a question record holds: [None], integers, floats, text, and
    the string-to-string tag record kept under ["metadata"]. *)
Inductive value : Type :=
  | VNone
  | VInt (z : Z)
  | VFloat (f : float)
  | VStr (s : string)
  | VTags (tags : list (string * string)).

(** A question record ([Dict]); [d.get(k, v)] is [default v (d !! k)]. *)
Abbreviation Doc := (gmap string value).

Definition get (d : Doc) (k : string) (dflt : value) : value := default dflt (d !! k).

(** ** Vectors, [EmbeddingGenerator] and the FAISS flat index *)

Definition Vec : Type := list float.

Definition zeros (n : nat) : Vec := repeat 0%float n.

(** *** NumPy's [float32]

    The nearest binary32 number (ties to even, overflow to an infinity,
    gradual underflow), as the binary64 float of the same value: what
    [astype(np.float32)] makes of a component and what an operation on
    [float32] operands makes of its exact result.  For [+], [-], [*], [/] and
    the square root the binary64 result rounded once more is that number. *)
Definition round32 (x : float) : float :=
  match Prim2SF x with
  | S754_finite s m e =>
      SF2Prim (binary_normalize 24 128 (if s then Z.neg m else Z.pos m) e s)
  | _ => x
  end.

Definition add32 (x y : float) : float := round32 (x + y).
Definition sub32 (x y : float) : float := round32 (x - y).
Definition mul32 (x y : float) : float := round32 (x * y).
Definition div32 (x y : float) : float := round32 (x / y).
Definition sqrt32 (x : float) : float := round32 (PrimFloat.sqrt x).

(** [a.astype(np.float32)] on a vector. *)
Definition astype32 (v : Vec) : Vec := map round32 v.

(** [np.linalg.norm(v)] on a [float32] vector; the terms are added from left
    to right. *)
Definition norm (v : Vec) : float :=
  sqrt32 (fold_left (fun acc x => add32 acc (mul32 x x)) v 0%float).

(** [np.dot(a, b)] on two [float32] vectors; shapes that differ raise. *)
Definition dot (a b : Vec) : outcome float :=
  if (length a =? length b)%nat
  then Returned (fold_left (fun acc p => add32 acc (mul32 (fst p) (snd p)))
                           (combine a b) 0%float)
  else Raised ValueError.

(** [EmbeddingGenerator.similarity].  The model's vectors are [float32]
    arrays, and the Python float [1e-8] added to a [float32] norm is taken
    to [float32]; the all-zero vector of [embed_text] gives the same result
    in either width. *)
Definition similarity (embedding1 embedding2 : Vec) : outcome float :=
  let embedding1 := astype32 embedding1 in
  let embedding2 := astype32 embedding2 in
  let emb1 := map (fun x => div32 x (add32 (norm embedding1) (round32 1e-8))) embedding1 in
  let emb2 := map (fun x => div32 x (add32 (norm embedding2) (round32 1e-8))) embedding2 in
  dot emb1 emb2.

(** [faiss.IndexFlatL2]: dimension and stored vectors, in insertion order. *)
Record IndexFlatL2 : Type := { dim : nat; xb : list Vec }.

Definition ntotal (ix : IndexFlatL2) : nat := length (xb ix).

(** Squared Euclidean distance of two [float32] vectors, in [float32]; the
    terms are added from left to right. *)
Definition l2 (x y : Vec) : float :=
  fold_left (fun acc p => add32 acc (mul32 (sub32 (fst p) (snd p)) (sub32 (fst p) (snd p))))
            (combine (astype32 x) (astype32 y)) 0%float.

(** The distance FAISS reports for a missing neighbour (with label [-1]). *)
Definition FLT_MAX : float := 3.4028234663852886e38%float.

Fixpoint insert_by {A : Type} (before : A -> A -> bool) (e : A) (l : list A) : list A :=
  match l with
  | [] => [e]
  | h :: t => if before e h then e :: l else h :: insert_by before e t
  end.

(** A stable sort: of two elements neither of which must go first, the one
    that came first stays first. *)
Definition stable_sort {A : Type} (before : A -> A -> bool) (l : list A) : list A :=
  fold_right (insert_by before) [] l.

Fixpoint enumerate_from {A : Type} (i : nat) (l : list A) : list (nat * A) :=
  match l with
  | [] => []
  | a :: r => (i, a) :: enumerate_from (S i) r
  end.

(** [index.search(x, k)] for one [float32] query vector: the [k] nearest
    stored vectors, nearest first, as parallel rows of [float32] distances
    and of labels, padded to length [k] with [(FLT_MAX, -1)].  The wrapper
    asserts the dimension and [k > 0]. *)
Definition search (ix : IndexFlatL2) (x : Vec) (k : Z) : outcome (list float * list Z) :=
  if negb (length x =? dim ix)%nat then Raised AssertionError
  else if (k <=? 0)%Z then Raised AssertionError
  else
    let scored := map (fun p => (l2 x (snd p), Z.of_nat (fst p))) (enumerate_from 0 (xb ix)) in
    let nearest := firstn (Z.to_nat k)
                     (stable_sort (fun a b => PrimFloat.leb (fst a) (fst b)) scored) in
    let row := nearest ++ repeat (FLT_MAX, (-1)%Z) (Z.to_nat k - length nearest) in
    Returned (map fst row, map snd row).

(** [list(row).index(x)]. *)
Fixpoint index_of (x : Z) (row : list Z) : outcome nat :=
  match row with
  | [] => Raised ValueError
  | y :: r => if (y =? x)%Z then Returned O else n ← index_of x r; Returned (S n)
  end.

(** ** [RAGSystem] *)

Record RAGSystem : Type := {
  faiss_index : option IndexFlatL2;
  metadata : list Doc;
  topic_cache : gmap string (list Doc);
  index_path : string;
  metadata_path : string
}.

Definition set_metadata (self : RAGSystem) (m : list Doc) : RAGSystem :=
  {| faiss_index := faiss_index self; metadata := m;
     topic_cache := topic_cache self;
     index_path := index_path self; metadata_path := metadata_path self |}.

Definition set_faiss_index (self : RAGSystem) (ix : option IndexFlatL2) : RAGSystem :=
  {| faiss_index := ix; metadata := metadata self;
     topic_cache := topic_cache self;
     index_path := index_path self; metadata_path := metadata_path self |}.

(** [RAGSystem.__init__]. *)
Definition new_rag (index_path metadata_path : string) : RAGSystem :=
  {| faiss_index := None; metadata := []; topic_cache := ∅;
     index_path := index_path; metadata_path := metadata_path |}.

(** *** Persistence *)

(** What a path holds: what [faiss.write_index] wrote (of [None] it writes
    an index file that reads back as no index), a list of records written by
    [json.dump], a file neither reader accepts, or a directory, which cannot
    be opened for writing or reading.  A JSON document that is not a list of
    records is not represented: [metadata] is a list of records throughout. *)
Inductive file : Type :=
  | FaissFile (ix : option IndexFlatL2)
  | JsonFile (docs : list Doc)
  | OtherFile
  | Directory.

Abbreviation FS := (gmap string file).

Definition is_directory (fs : FS) (path : string) : bool :=
  match fs !! path with
  | Some Directory => true
  | _ => false
  end.

(** [RAGSystem.save_index]: the result and the files afterwards.  The index
    is written first, whatever [faiss_index] is; when the metadata cannot be
    written after it the index file stays written. *)
Definition save_index (self : RAGSystem) (fs : FS) : bool * FS :=
  if is_directory fs (index_path self) then (false, fs)
  else
    let fs := <[index_path self := FaissFile (faiss_index self)]> fs in
    if is_directory fs (metadata_path self) then (false, fs)
    else (true, <[metadata_path self := JsonFile (metadata self)]> fs).

(** [RAGSystem.load_index]: the result and the system afterwards.  The index
    is assigned, then the metadata when its file exists, and last the log
    line reads [self.faiss_index.ntotal], which raises when no index was
    read. *)
Definition load_index (self : RAGSystem) (fs : FS) : bool * RAGSystem :=
  match fs !! index_path self with
  | None => (false, self)
  | Some (FaissFile ix) =>
      let self := set_faiss_index self ix in
      let read :=
        match fs !! metadata_path self with
        | None => Returned self
        | Some (JsonFile docs) => Returned (set_metadata self docs)
        | Some _ => Raised ValueError
        end in
      match read with
      | Raised _ => (false, self)
      | Returned self =>
          match faiss_index self with
          | None => (false, self)
          | Some _ => (true, self)
          end
      end
  | Some _ => (false, self)
  end.

Section System.

(** The sentence-transformer model behind [EmbeddingGenerator]: the width of
    its vectors and [model.encode], which may fail. *)
Variable embedding_dim : nat.
Variable encode : string -> outcome Vec.

(** Python's rendering of floats and of the tag record: [repr(x)],
    [format(x, ".2%")] and [str(d)]. *)
Variable float_repr : float -> string.
Variable float_percent : float -> string.
Variable tags_repr : list (string * string) -> string.

(** The answer backend ([MCPClient.answer_question_with_context]): from the
    client's state, the prompt, the optional context and the mode to an
    answer (or [None]) and the client's next state. *)
Variable Client : Type.
Variable mcp_answer : Client -> string -> option string -> string -> option string * Client.

(** [EmbeddingGenerator.embed_text]. *)
Definition embed_text (text : value) : outcome Vec :=
  match text with
  | VStr EmptyString => Returned (zeros embedding_dim)
  | VStr s => encode (PyStr.take 2000 s)
  | _ => Returned (zeros embedding_dim)
  end.

(** *** [RAGSystem.retrieve_notes] *)

(** The loop over [zip(indices[0], similarities)].  A similarity is a
    [float32]; in [similarity >= similarity_threshold] the Python float is
    taken to [float32] and the two are compared there, and
    [float(similarity)] is the same number as a Python float. *)
Fixpoint build_results (self : RAGSystem) (distances : list float) (indices : list Z)
    (similarity_threshold : float) (pairs : list (Z * float)) : outcome (list Doc) :=
  match pairs with
  | [] => Returned []
  | (idx, similarity) :: rest =>
      if (idx <? Z.of_nat (length (metadata self)))%Z
         && PrimFloat.leb (round32 similarity_threshold) similarity
      then
        m ← py_index (metadata self) idx;
        pos ← index_of idx indices;
        dist ← py_index distances (Z.of_nat pos);
        let result := m in
        let result := <["similarity_score" := VFloat similarity]> result in
        let result := <["distance" := VFloat dist]> result in
        results ← build_results self distances indices similarity_threshold rest;
        Returned (result :: results)
      else build_results self distances indices similarity_threshold rest
  end.

Definition retrieve_notes (self : RAGSystem) (query : string) (top_k : Z)
    (similarity_threshold : float) : list Doc :=
  match faiss_index self with
  | None => []
  | Some ix =>
      if (length (metadata self) =? 0)%nat then []
      else
        catch
          (query_embedding ← embed_text (VStr query);
           let query_embedding := astype32 query_embedding in
           '(distances, indices) ← search ix query_embedding top_k;
           let similarities := map (fun dist => div32 1 (add32 1 dist)) distances in
           build_results self distances indices similarity_threshold
                         (combine indices similarities))
          []
  end.

(** *** [RAGSystem.retrieve_by_unit]

    The stored records are shared objects: [unit_questions] holds references
    to records of [self.metadata], here their positions in that list, and an
    assignment through a reference updates the stored record. *)

Definition str_upper (v : value) : outcome (list N) :=
  match v with
  | VStr s => Returned (PyStr.upper s)
  | _ => Raised AttributeError
  end.

(** [[m for m in self.metadata if m.get("unit", "").upper() == unit.upper()]],
    as references. *)
Fixpoint filter_unit (unit : string) (i : nat) (ms : list Doc) : outcome (list nat) :=
  match ms with
  | [] => Returned []
  | m :: rest =>
      u ← str_upper (get m "unit" (VStr ""));
      refs ← filter_unit unit (S i) rest;
      Returned (if bool_decide (u = PyStr.upper unit) then i :: refs else refs)
  end.

(** The loop [for q in unit_questions]: the outcome and the store afterwards. *)
Fixpoint score_units (query_embedding : Vec) (refs : list nat) (store : list Doc)
  : outcome unit * list Doc :=
  match refs with
  | [] => (Returned tt, store)
  | r :: rest =>
      match store !! r with
      | None => (Raised IndexError, store)
      | Some q =>
          match (q_embedding ← embed_text (get q "question" (VStr ""));
                 similarity query_embedding q_embedding) with
          | Raised e => (Raised e, store)
          | Returned s =>
              score_units query_embedding rest
                (<[r := <["similarity_score" := VFloat s]> q]> store)
          end
      end
  end.

(** [x.get("similarity_score", 0)] of the record behind a reference; every
    record that is sorted has just been given a float. *)
Definition sort_key (store : list Doc) (r : nat) : float :=
  match store !! r with
  | Some q =>
      match get q "similarity_score" (VInt 0) with
      | VFloat f => f
      | _ => 0%float
      end
  | None => 0%float
  end.

(** The records behind a list of references. *)
Definition deref (store : list Doc) (refs : list nat) : list Doc :=
  omap (fun r => store !! r) refs.

(** The outcome and the system afterwards; [query] is [None] when absent. *)
Definition retrieve_by_unit (self : RAGSystem) (unit : string) (query : option string)
    (top_k : Z) : outcome (list Doc) * RAGSystem :=
  match filter_unit unit 0 (metadata self) with
  | Raised e => (Raised e, self)
  | Returned [] => (Returned [], self)
  | Returned unit_questions =>
      match query with
      | None | Some EmptyString =>
          (Returned (deref (metadata self) (py_slice_to unit_questions top_k)), self)
      | Some q =>
          match embed_text (VStr q) with
          | Raised e => (Raised e, self)
          | Returned query_embedding =>
              let '(scored, store) :=
                score_units query_embedding unit_questions (metadata self) in
              match scored with
              | Raised e => (Raised e, set_metadata self store)
              | Returned _ =>
                  let unit_questions :=
                    stable_sort
                      (fun a b => PrimFloat.leb (sort_key store b) (sort_key store a))
                      unit_questions in
                  (Returned (deref store (py_slice_to unit_questions top_k)),
                   set_metadata self store)
              end
          end
      end
  end.

(** ** [MCPOrchestrator] *)

Record MCPOrchestrator : Type := {
  rag_system : option RAGSystem;
  use_rag_threshold : float
}.

Definition nl : string := String (ascii_of_N 10) EmptyString.

(** [str(v)]. *)
Definition py_str (v : value) : string :=
  match v with
  | VNone => "None"
  | VInt z => pretty z
  | VFloat f => float_repr f
  | VStr s => s
  | VTags t => tags_repr t
  end.

(** [float(z)]; an integer beyond the range of floats raises. *)
Definition float_of_Z (z : Z) : outcome float :=
  let f := SF2Prim (binary_normalize prec emax z 0 false) in
  if PrimFloat.is_infinity f then Raised OverflowError else Returned f.

(** [format(v, ".2%")]. *)
Definition format_percent (v : value) : outcome string :=
  match v with
  | VFloat f => Returned (float_percent f)
  | VInt z => f ← float_of_Z z; Returned (float_percent f)
  | VStr _ => Raised ValueError
  | _ => Raised TypeError
  end.

(** [v[:500]]. *)
Definition excerpt (v : value) : outcome string :=
  match v with
  | VStr s => Returned (PyStr.take 500 s)
  | _ => Raised TypeError
  end.

(** The entry of the [i]-th question (counted from 1). *)
Definition format_entry (i : nat) (q : Doc) : outcome string :=
  let question_text := get q "question" (VStr "") in
  let unit := get q "unit" (VStr "Unknown") in
  let year := get q "year" (VStr "Unknown") in
  let similarity := get q "similarity_score" (VInt 0) in
  relevance ← format_percent similarity;
  text ← excerpt question_text;
  Returned (nl +:+ "[Q" +:+ pretty i +:+ "] Unit: " +:+ py_str unit
            +:+ ", Year: " +:+ py_str year
            +:+ " (Relevance: " +:+ relevance +:+ ")" +:+ nl +:+ text).

Definition more_questions (n : nat) : string :=
  nl +:+ "... and " +:+ pretty n +:+ " more questions".

(** The loop of [format_context] from the [i]-th question on: the parts it
    appends.  [total] is the number of questions, [total_length] the length
    of the entries appended so far. *)
Fixpoint format_entries (total i : nat) (questions : list Doc) (total_length : Z)
    (max_context_length : Z) : outcome (list string) :=
  match questions with
  | [] => Returned []
  | q :: rest =>
      entry ← format_entry i q;
      if (total_length + Z.of_nat (String.length entry) >? max_context_length)%Z
      then Returned [more_questions (total - i + 1)]
      else
        parts ← format_entries total (S i) rest
                  (total_length + Z.of_nat (String.length entry))%Z max_context_length;
        Returned (entry :: parts)
  end.

Definition format_context (retrieved_questions : list Doc) (max_context_length : Z)
  : outcome string :=
  match retrieved_questions with
  | [] => Returned ""
  | _ =>
      let context_parts :=
        ["RELEVANT PAST PAPER QUESTIONS:"; PyStr.repeat_char "-" 50] in
      parts ← format_entries (length retrieved_questions) 1 retrieved_questions 0
                max_context_length;
      Returned (PyStr.join nl (context_parts ++ parts))
  end.

(** [answer_question]: the outcome and the client afterwards.  [use_rag] is
    [None] when the caller leaves the decision to [should_use_rag]. *)
Definition answer_question (self : MCPOrchestrator) (client : Client) (query : string)
    (mode : string) (use_rag : option bool) (top_k : Z)
  : outcome (option string) * Client :=
  let use_rag :=
    match use_rag with
    | None => fst (Decision.should_use_rag (use_rag_threshold self) query)
    | Some b => b
    end in
  let context :=
    match use_rag, rag_system self with
    | true, Some rag =>
        match retrieve_notes rag query top_k 0.3%float with
        | [] => Returned ""
        | retrieved => format_context retrieved 2000
        end
    | _, _ => Returned ""
    end in
  match context with
  | Raised e => (Raised e, client)
  | Returned context =>
      let combined_query :=
        match context with
        | EmptyString => query
        | _ => context +:+ nl +:+ nl +:+ "QUESTION:" +:+ nl +:+ query
        end in
      let '(answer, client) :=
        mcp_answer client combined_query
          (match context with EmptyString => None | _ => Some context end) mode in
      (Returned answer, client)
  end.

(** [batch_answer_questions], from a dictionary of results so far. *)
Fixpoint batch_loop (self : MCPOrchestrator) (client : Client) (queries : list string)
    (mode : string) (use_rag : bool) (results : gmap string (option string))
  : outcome (gmap string (option string)) * Client :=
  match queries with
  | [] => (Returned results, client)
  | query :: rest =>
      match answer_question self client query mode (Some use_rag) 3 with
      | (Raised e, client) => (Raised e, client)
      | (Returned answer, client) =>
          batch_loop self client rest mode use_rag (<[query := answer]> results)
      end
  end.

Definition batch_answer_questions (self : MCPOrchestrator) (client : Client)
    (queries : list string) (mode : string) (use_rag : bool)
  : outcome (gmap string (option string)) * Client :=
  batch_loop self client queries mode use_rag ∅.

End System.

(** * Properties *)

Import PyStr Decision.

(** ** The retrieval decision *)

Example split_tokens :
  split "  Define   object-oriented programming " = ["Define"; "object-oriented"; "programming"].
Proof. reflexivity. Qed.

Example patterns_sample :
  (search_camel "camelCase", search_camel "CamelCase", search_camel "HeLLo",
   search_acronym "an API", search_acronym "APIx", search_acronym "A_PI",
   search_acronym "x OOP.")
  = (false, true, true, true, false, false, true).
Proof. reflexivity. Qed.

Example decision_samples :
  should_use_rag 0.5 "Define OOP and explain its principles" = (false, 0.45000000000000007%float)
  /\ should_use_rag 0.5 "Solve the network design problem from BBIT106 past paper"
     = (true, 0.60000000000000009%float)
  /\ should_use_rag 0.5 "What is the weather today?" = (false, 0%float).
Proof. vm_compute. repeat split; reflexivity. Qed.

Definition scenario2 : string :=
  "Define object-oriented programming and explain its principles".

Example scenario2_features :
  split scenario2
  = ["Define"; "object-oriented"; "programming"; "and"; "explain"; "its"; "principles"]
  /\ List.filter (fun kw => contains kw (lower scenario2)) exam_keywords = ["define"; "explain"]
  /\ search_camel scenario2 = false
  /\ search_acronym scenario2 = false
  /\ existsb (fun word => contains word (lower scenario2)) context_words = false.
Proof. vm_compute. repeat split; reflexivity. Qed.

(** C2, as stated: with the default threshold 0.5 the query of scenario 2 gets
    confidence >= 0.5 and decision true.  The code gives neither. *)
Lemma scenario2_as_stated_fails :
  ~ (PrimFloat.leb 0.5 (snd (should_use_rag default_threshold scenario2)) = true
     /\ fst (should_use_rag default_threshold scenario2) = true).
Proof. vm_compute. intros [H _]. discriminate H. Qed.

(** C2, amended: for the query of scenario 2 (7 tokens, two keywords, no
    technical pattern, no course-context word) [should_use_rag] with the
    default threshold 0.5 returns confidence 0.1 + 0.2 = 0.30000000000000004,
    which is below 0.5, and decision false. *)
Theorem scenario2_decision :
  should_use_rag default_threshold scenario2 = (false, 0.30000000000000004%float)
  /\ PrimFloat.ltb (snd (should_use_rag default_threshold scenario2)) 0.5 = true.
Proof. vm_compute. split; reflexivity. Qed.

(** *** The CamelCase test *)

Fixpoint all_lower (s : string) : bool :=
  match s with
  | EmptyString => true
  | String c r => is_lower c && all_lower r
  end.

(** What [[A-Z][a-z]+[A-Z]] looks for: an upper-case letter, one or more
    lower-case letters, an upper-case letter. *)
Definition upper_lowers_upper (q : string) : Prop :=
  exists pre c1 mid c2 post,
    q = pre +:+ String c1 (mid +:+ String c2 post)
    /\ is_upper c1 = true /\ mid <> EmptyString /\ all_lower mid = true
    /\ is_upper c2 = true.

(** The pattern as the specification words it: a lower-case run, an
    upper-case letter, a lower-case letter ([[a-z]+[A-Z][a-z]]). *)
Fixpoint spec_embedded_capital (s : string) : bool :=
  match s with
  | EmptyString => false
  | String c1 r =>
      match r with
      | String c2 (String c3 _) => is_lower c1 && is_upper c2 && is_lower c3
      | _ => false
      end
      || spec_embedded_capital r
  end.

Lemma lowers_then_upper_split s :
  lowers_then_upper s = true ->
  exists lows c post, s = lows +:+ String c post /\ all_lower lows = true /\ is_upper c = true.
Proof.
  induction s as [|c r IH]; simpl; [discriminate|].
  destruct (is_upper c) eqn:Hu.
  - intros _. exists EmptyString, c, r. auto.
  - destruct (is_lower c) eqn:Hl; [|discriminate].
    intros H. destruct (IH H) as (lows & c' & post & -> & Hall & Hc').
    exists (String c lows), c', post. simpl. rewrite Hl. auto.
Qed.

Lemma lowers_then_upper_join lows c post :
  all_lower lows = true -> is_upper c = true ->
  lowers_then_upper (lows +:+ String c post) = true.
Proof.
  intros Hall Hc. induction lows as [|x r IH]; simpl in *.
  - now rewrite Hc.
  - apply andb_true_iff in Hall as [Hx Hr]. rewrite Hx, (IH Hr).
    now destruct (is_upper x).
Qed.

Lemma search_camel_prepend pre s :
  search_camel s = true -> search_camel (pre +:+ s) = true.
Proof.
  intros H. induction pre as [|c r IH]; simpl; [exact H|].
  rewrite IH. apply orb_true_r.
Qed.

Lemma search_camel_found s :
  search_camel s = true -> exists pre s', s = pre +:+ s' /\ camel_here s' = true.
Proof.
  induction s as [|c r IH].
  - simpl. discriminate.
  - intros H. cbn [search_camel] in H. apply orb_true_iff in H as [H|H].
    + exists EmptyString, (String c r). auto.
    + destruct (IH H) as (pre & s' & -> & Hs'). exists (String c pre), s'. auto.
Qed.

Lemma search_camel_iff q : search_camel q = true <-> upper_lowers_upper q.
Proof.
  split.
  - intros H. destruct (search_camel_found _ H) as (pre & s' & -> & Hs').
    destruct s' as [|c1 [|c2 r]]; simpl in Hs'; try discriminate.
    apply andb_true_iff in Hs' as [Hs' Hr].
    apply andb_true_iff in Hs' as [H1 H2].
    destruct (lowers_then_upper_split _ Hr) as (lows & c & post & -> & Hall & Hc).
    exists pre, c1, (String c2 lows), c, post. simpl. rewrite H2, Hall. auto.
  - intros (pre & c1 & mid & c2 & post & -> & H1 & Hne & Hall & H2).
    apply search_camel_prepend.
    destruct mid as [|m0 mid']; [congruence|]. simpl in Hall.
    apply andb_true_iff in Hall as [Hm0 Hall].
    change (search_camel (String c1 (String m0 (mid' +:+ String c2 post))) = true).
    unfold search_camel at 1; fold search_camel. unfold camel_here.
    rewrite H1, Hm0, (lowers_then_upper_join _ _ _ Hall H2). reflexivity.
Qed.

(** C5, as stated: the first technical-pattern test adds 0.15 exactly when the
    query has a lower-case run, an upper-case letter and a lower-case letter.
    "camelCase" has that shape and gains nothing; "HeLLo" has not and gains
    0.15. *)
Lemma embedded_capital_as_stated_fails :
  (spec_embedded_capital "camelCase" = true
   /\ camel_factor "camelCase" 0 = 0%float
   /\ snd (should_use_rag default_threshold "camelCase") = 0%float)
  /\ (spec_embedded_capital "HeLLo" = false
      /\ camel_factor "HeLLo" 0 = 0.15%float
      /\ snd (should_use_rag default_threshold "HeLLo") = 0.15%float).
Proof. vm_compute. repeat split; reflexivity. Qed.

(** C5, amended: the first technical-pattern test of [should_use_rag] adds
    exactly 0.15 to the score if the query contains an upper-case letter
    followed by one or more lower-case letters followed by an upper-case
    letter, and leaves the score as it is otherwise. *)
Theorem camel_factor_contribution (q : string) (score : float) :
  (upper_lowers_upper q -> camel_factor q score = (score + 0.15)%float)
  /\ (~ upper_lowers_upper q -> camel_factor q score = score).
Proof.
  unfold camel_factor. split; intros H.
  - apply search_camel_iff in H. now rewrite H.
  - destruct (search_camel q) eqn:E; [|reflexivity].
    exfalso. apply H, search_camel_iff, E.
Qed.

(** *** Adding a keyword *)

Definition confidence (query : string) : float :=
  snd (should_use_rag default_threshold query).

Definition keyword_count (query : string) : nat :=
  length (List.filter (fun kw => contains kw (lower query)) exam_keywords).

Definition specific (query : string) : bool :=
  existsb (fun word => contains word (lower query)) context_words.

(** The confidence as a function of the five observations it makes of the
    query. *)
Definition score_of (n k : nat) (c a s : bool) : float :=
  let score := 0%float in
  let score :=
    if (10 <? n)%nat then (score + 0.2)%float
    else if (5 <? n)%nat then (score + 0.1)%float else score in
  let score :=
    if (0 <? k)%nat then (score + py_min 0.3 (float_of_nat k * 0.1))%float else score in
  let score := if c then (score + 0.15)%float else score in
  let score := if a then (score + 0.15)%float else score in
  let score := if s then (score + 0.2)%float else score in
  let max_score := (0 + 0.2 + 0.3 + 0.3 + 0.2)%float in
  if PrimFloat.ltb 0 max_score then (score / max_score)%float else 0%float.

Lemma should_use_rag_score_of thr q :
  snd (should_use_rag thr q)
  = score_of (length (split q)) (keyword_count q) (search_camel q) (search_acronym q)
             (specific q).
Proof.
  unfold should_use_rag, score_of, length_factor, keyword_factor, camel_factor,
    acronym_factor, specificity_factor, keyword_count, specific.
  cbv zeta. cbn [snd].
  destruct (10 <? length (split q))%nat, (5 <? length (split q))%nat,
    (0 <? _)%nat, (search_camel q), (search_acronym q), (existsb _ _);
    reflexivity.
Qed.

Lemma should_use_rag_decision thr q :
  fst (should_use_rag thr q) = PrimFloat.leb thr (snd (should_use_rag thr q)).
Proof. reflexivity. Qed.

(** The length factor sees the token count through two comparisons only. *)
Definition length_class (n : nat) : nat :=
  if (10 <? n)%nat then 11 else if (5 <? n)%nat then 6 else 0.

Lemma score_of_length_class n k c a s :
  score_of n k c a s = score_of (length_class n) k c a s.
Proof.
  unfold score_of, length_class.
  destruct (10 <? n)%nat; [reflexivity|]. destruct (5 <? n)%nat; reflexivity.
Qed.

Lemma length_class_mono n n' : (n <= n')%nat -> (length_class n <= length_class n')%nat.
Proof.
  intros H. unfold length_class.
  destruct (Nat.ltb_spec 10 n), (Nat.ltb_spec 10 n'), (Nat.ltb_spec 5 n),
    (Nat.ltb_spec 5 n'); lia.
Qed.

Lemma length_class_In n : In (length_class n) [0; 6; 11]%nat.
Proof.
  unfold length_class. destruct (10 <? n)%nat; [|destruct (5 <? n)%nat]; simpl; auto.
Qed.

Definition observation : Type := nat * nat * bool * bool * bool.

Definition observation_score (o : observation) : float :=
  let '(n, k, c, a, s) := o in score_of n k c a s.

Definition observation_le (o o' : observation) : bool :=
  let '(n, k, c, a, s) := o in
  let '(n', k', c', a', s') := o' in
  (n <=? n')%nat && (k <=? k')%nat && implb c c' && implb a a' && implb s s'.

Definition observations : list observation :=
  list_prod (list_prod (list_prod (list_prod [0; 6; 11]%nat (seq 0 21))
    [false; true]) [false; true]) [false; true].

Lemma score_table_monotone :
  forallb (fun o => forallb (fun o' =>
    implb (observation_le o o')
          (PrimFloat.leb (observation_score o) (observation_score o')))
    observations) observations = true.
Proof. vm_compute. reflexivity. Qed.

Lemma observation_In n k c a s :
  (k <= 20)%nat -> In (length_class n, k, c, a, s) observations.
Proof.
  intros Hk. unfold observations.
  repeat apply in_prod; try (destruct c, a, s; simpl; tauto).
  - apply length_class_In.
  - apply in_seq. lia.
Qed.

Lemma score_of_mono n n' k k' c c' a a' s s' :
  (n <= n')%nat -> (k <= k')%nat -> (k' <= 20)%nat ->
  (c = true -> c' = true) -> (a = true -> a' = true) -> (s = true -> s' = true) ->
  PrimFloat.leb (score_of n k c a s) (score_of n' k' c' a' s') = true.
Proof.
  intros Hn Hk Hk' Hc Ha Hs.
  rewrite (score_of_length_class n), (score_of_length_class n').
  pose proof score_table_monotone as T.
  rewrite forallb_forall in T.
  specialize (T _ (observation_In n k c a s ltac:(lia))).
  rewrite forallb_forall in T.
  specialize (T _ (observation_In n' k' c' a' s' Hk')).
  apply length_class_mono in Hn.
  assert (L : observation_le (length_class n, k, c, a, s)
                             (length_class n', k', c', a', s') = true).
  { unfold observation_le.
    repeat (apply andb_true_iff; split).
    - now apply Nat.leb_le.
    - now apply Nat.leb_le.
    - destruct c, c'; auto.
    - destruct a, a'; auto.
    - destruct s, s'; auto. }
  rewrite L in T. exact T.
Qed.

Lemma lower_app a b : lower (a +:+ b) = lower a +:+ lower b.
Proof. induction a as [|c r IH]; simpl; [reflexivity|]. now rewrite IH. Qed.

Lemma starts_with_app p s t : starts_with p s = true -> starts_with p (s +:+ t) = true.
Proof.
  revert s. induction p as [|a p IH]; intros s; simpl; [reflexivity|].
  destruct s as [|b s]; simpl; [discriminate|].
  intros H. apply andb_true_iff in H as [H1 H2]. rewrite H1. simpl. now apply IH.
Qed.

Lemma contains_app_r sub s t : contains sub s = true -> contains sub (s +:+ t) = true.
Proof.
  induction s as [|c r IH]; intros H.
  - simpl in H. rewrite orb_false_r in H.
    destruct sub; [|discriminate]. destruct t; reflexivity.
  - cbn [contains] in H. apply orb_true_iff in H as [H|H].
    + change (contains sub (String c (r +:+ t)) = true). cbn [contains].
      apply (starts_with_app _ _ t) in H.
      change (String c r +:+ t) with (String c (r +:+ t)) in H. now rewrite H.
    + change (contains sub (String c (r +:+ t)) = true). cbn [contains].
      rewrite (IH H). apply orb_true_r.
Qed.

Lemma contains_app_l sub s t : contains sub s = true -> contains sub (t +:+ s) = true.
Proof.
  intros H. induction t as [|c r IH]; [exact H|].
  change (contains sub (String c (r +:+ s)) = true). cbn [contains].
  rewrite IH. apply orb_true_r.
Qed.

Lemma filter_length_mono {A : Type} (f g : A -> bool) (l : list A) :
  (forall x, f x = true -> g x = true) ->
  (length (List.filter f l) <= length (List.filter g l))%nat.
Proof.
  intros H. induction l as [|x l IH]; simpl; [lia|].
  destruct (f x) eqn:Hf.
  - rewrite (H _ Hf). simpl. lia.
  - destruct (g x); simpl; lia.
Qed.

Lemma filter_length_le {A : Type} (f : A -> bool) (l : list A) :
  (length (List.filter f l) <= length l)%nat.
Proof. induction l as [|x l IH]; simpl; [lia|]. destruct (f x); simpl; lia. Qed.

Lemma keyword_count_le q : (keyword_count q <= 20)%nat.
Proof. unfold keyword_count. apply (filter_length_le _ exam_keywords). Qed.

Lemma existsb_mono {A : Type} (f g : A -> bool) (l : list A) :
  (forall x, f x = true -> g x = true) -> existsb f l = true -> existsb g l = true.
Proof.
  intros H. induction l as [|x l IH]; simpl; [discriminate|].
  intros E. apply orb_true_iff in E as [E|E].
  - now rewrite (H _ E).
  - rewrite (IH E). apply orb_true_r.
Qed.

(** Tokens. *)
Lemma split_from_pending cur s :
  cur <> EmptyString -> (1 <= length (split_from cur s))%nat.
Proof.
  revert cur. induction s as [|c r IH]; intros cur Hcur; simpl.
  - destruct cur; [congruence|simpl; lia].
  - destruct (is_space c).
    + destruct cur; [congruence|simpl; lia].
    + apply IH. discriminate.
Qed.

Lemma split_from_app_r cur s t :
  (length (split_from cur s) <= length (split_from cur (s +:+ t)))%nat.
Proof.
  revert cur. induction s as [|c r IH]; intros cur.
  - change (EmptyString +:+ t) with t. destruct cur; simpl; [lia|].
    apply split_from_pending. discriminate.
  - change (String c r +:+ t) with (String c (r +:+ t)). cbn [split_from].
    destruct (is_space c).
    + destruct cur; [apply IH|]. simpl. specialize (IH EmptyString). lia.
    + apply IH.
Qed.

Lemma split_from_app_l cur p c s :
  is_space c = true ->
  (length (split_from EmptyString s) <= length (split_from cur (p +:+ String c s)))%nat.
Proof.
  intros Hc. revert cur. induction p as [|x r IH]; intros cur.
  - simpl. rewrite Hc. destruct cur; simpl; lia.
  - change (String x r +:+ String c s) with (String x (r +:+ String c s)).
    cbn [split_from]. destruct (is_space x).
    + destruct cur; [apply IH|]. simpl. specialize (IH EmptyString). lia.
    + apply IH.
Qed.

(** Patterns. *)
Lemma lowers_then_upper_app s t :
  lowers_then_upper s = true -> lowers_then_upper (s +:+ t) = true.
Proof.
  induction s as [|c r IH]; simpl; [discriminate|].
  destruct (is_upper c); [reflexivity|]. destruct (is_lower c); [apply IH|discriminate].
Qed.

Lemma camel_here_app s t : camel_here s = true -> camel_here (s +:+ t) = true.
Proof.
  destruct s as [|c1 [|c2 r]]; simpl; try discriminate.
  intros H. apply andb_true_iff in H as [H Hr]. rewrite H. simpl.
  now apply lowers_then_upper_app.
Qed.

Lemma search_camel_app_r s t : search_camel s = true -> search_camel (s +:+ t) = true.
Proof.
  induction s as [|c r IH]; intros H.
  - simpl in H. discriminate.
  - cbn [search_camel] in H. apply orb_true_iff in H as [H|H].
    + apply (camel_here_app _ t) in H.
      change (String c r +:+ t) with (String c (r +:+ t)) in *.
      cbn [search_camel]. now rewrite H.
    + change (String c r +:+ t) with (String c (r +:+ t)).
      cbn [search_camel]. rewrite (IH H). apply orb_true_r.
Qed.

Lemma upper_run_app s c t :
  is_upper c = false ->
  upper_run (s +:+ String c t) = (fst (upper_run s), snd (upper_run s) +:+ String c t).
Proof.
  intros Hc. induction s as [|x r IH].
  - simpl. now rewrite Hc.
  - change (String x r +:+ String c t) with (String x (r +:+ String c t)).
    cbn [upper_run]. destruct (is_upper x); [|reflexivity].
    rewrite IH. now destruct (upper_run r).
Qed.

Lemma acronym_here_app s c t :
  is_word c = false -> is_upper c = false ->
  acronym_here s = true -> acronym_here (s +:+ String c t) = true.
Proof.
  intros Hw Hu. unfold acronym_here. rewrite (upper_run_app _ _ _ Hu).
  destruct (upper_run s) as [n rest]. simpl.
  intros H. apply andb_true_iff in H as [Hn Hrest]. rewrite Hn. simpl.
  destruct rest; simpl; [now rewrite Hw|exact Hrest].
Qed.

Lemma search_acronym_from_app_r b s c t :
  is_word c = false -> is_upper c = false ->
  search_acronym_from b s = true -> search_acronym_from b (s +:+ String c t) = true.
Proof.
  intros Hw Hu. revert b. induction s as [|x r IH]; intros b H.
  - simpl in H. discriminate.
  - cbn [search_acronym_from] in H.
    change (String x r +:+ String c t) with (String x (r +:+ String c t)).
    cbn [search_acronym_from].
    apply orb_true_iff in H as [H|H].
    + apply andb_true_iff in H as [Hb H]. rewrite Hb.
      apply (acronym_here_app _ c t Hw Hu) in H.
      change (String x r +:+ String c t) with (String x (r +:+ String c t)) in H.
      now rewrite H.
    + rewrite (IH _ H). apply orb_true_r.
Qed.

Lemma search_acronym_from_app_l b p c s :
  is_word c = false ->
  search_acronym_from false s = true ->
  search_acronym_from b (p +:+ String c s) = true.
Proof.
  intros Hw H. revert b. induction p as [|x r IH]; intros b.
  - simpl. rewrite Hw, H. apply orb_true_r.
  - change (String x r +:+ String c s) with (String x (r +:+ String c s)).
    cbn [search_acronym_from]. rewrite IH. apply orb_true_r.
Qed.

(** The query with one more word, at its end or at its start. *)
Definition with_word_after (query word : string) : string := query +:+ " " +:+ word.
Definition with_word_before (query word : string) : string := word +:+ " " +:+ query.

Lemma confidence_more_after q w :
  PrimFloat.leb (confidence q) (confidence (with_word_after q w)) = true.
Proof.
  unfold confidence, with_word_after. rewrite !should_use_rag_score_of.
  apply score_of_mono.
  - apply split_from_app_r.
  - apply filter_length_mono. intros kw. rewrite lower_app. apply contains_app_r.
  - apply keyword_count_le.
  - apply search_camel_app_r.
  - apply search_acronym_from_app_r; reflexivity.
  - apply existsb_mono. intros x. rewrite lower_app. apply contains_app_r.
Qed.

Lemma confidence_more_before q w :
  PrimFloat.leb (confidence q) (confidence (with_word_before q w)) = true.
Proof.
  unfold confidence, with_word_before. rewrite !should_use_rag_score_of.
  apply score_of_mono.
  - apply (split_from_app_l EmptyString w " " q). reflexivity.
  - apply filter_length_mono. intros kw H. rewrite !lower_app.
    now apply contains_app_l, contains_app_l.
  - apply keyword_count_le.
  - intros H. now apply search_camel_prepend, (search_camel_prepend " ").
  - apply search_acronym_from_app_l. reflexivity.
  - apply existsb_mono. intros x H. rewrite !lower_app.
    now apply contains_app_l, contains_app_l.
Qed.

(** C6, as stated: adding a recognized keyword to a query never lowers the
    confidence.  Keywords are looked for as substrings and acronyms between
    word boundaries, so where the keyword goes matters: "quiz" added as a
    word between "past" and "paper" breaks the keyword "past paper" (0.4
    falls to 0.30000000000000004), and "exam" glued to "AB" hides the acronym
    (0.15 falls to 0.1). *)
Lemma keyword_monotone_as_stated_fails :
  (In "quiz" exam_keywords
   /\ confidence "past paper quiz" = 0.4%float
   /\ confidence "past quiz paper quiz" = 0.30000000000000004%float
   /\ PrimFloat.ltb (confidence "past quiz paper quiz") (confidence "past paper quiz") = true)
  /\ (In "exam" exam_keywords
      /\ confidence "AB" = 0.15%float
      /\ confidence ("AB" +:+ "exam") = 0.1%float
      /\ PrimFloat.ltb (confidence ("AB" +:+ "exam")) (confidence "AB") = true).
Proof. vm_compute. repeat split; try reflexivity; tauto. Qed.

(** C6, amended: for every query and every keyword of the exam vocabulary,
    adding the keyword as a separate word at the end of the query, or at its
    start, never lowers the confidence [should_use_rag] returns. *)
Theorem keyword_added_as_word (thr : float) (q kw : string) :
  In kw exam_keywords ->
  PrimFloat.leb (snd (should_use_rag thr q))
                (snd (should_use_rag thr (with_word_after q kw))) = true
  /\ PrimFloat.leb (snd (should_use_rag thr q))
                   (snd (should_use_rag thr (with_word_before q kw))) = true.
Proof.
  intros _. split.
  - apply (confidence_more_after q kw).
  - apply (confidence_more_before q kw).
Qed.

Lemma keyword_added_as_word_witness :
  In "quiz" exam_keywords
  /\ PrimFloat.leb (snd (should_use_rag 0.5 "past paper"))
                   (snd (should_use_rag 0.5 (with_word_after "past paper" "quiz"))) = true
  /\ PrimFloat.leb (snd (should_use_rag 0.5 "past paper"))
                   (snd (should_use_rag 0.5 (with_word_before "past paper" "quiz"))) = true.
Proof.
  assert (H : In "quiz" exam_keywords) by (simpl; tauto).
  split; [exact H|]. exact (keyword_added_as_word 0.5 "past paper" "quiz" H).
Defined.

(** ** Retrieval *)

Section RetrievalProperties.

Variable embedding_dim : nat.
Variable encode : string -> outcome Vec.

Local Abbreviation notes := (retrieve_notes embedding_dim encode).
Local Abbreviation by_unit := (retrieve_by_unit embedding_dim encode).
Local Abbreviation embed := (embed_text embedding_dim encode).

(** A search that returns gives rows of exactly [k] entries. *)
Lemma search_rows ix x k distances indices :
  search ix x k = Returned (distances, indices) ->
  length distances = Z.to_nat k /\ length indices = Z.to_nat k.
Proof.
  unfold search.
  destruct (negb _); [discriminate|]. destruct (k <=? 0)%Z; [discriminate|].
  intros H. injection H as <- <-.
  rewrite !length_map, !length_app, !repeat_length.
  match goal with |- context [firstn ?n ?l] =>
    pose proof (firstn_le_length n l) end.
  lia.
Qed.

(** A record whose similarity score is at least the threshold. *)
Definition passes (similarity_threshold : float) (r : Doc) : Prop :=
  exists s, r !! "similarity_score" = Some (VFloat s)
            /\ PrimFloat.leb similarity_threshold s = true.

(** What the loop of [retrieve_notes] keeps: at most one record per pair,
    each with a similarity score that is at least the threshold as a
    [float32]. *)
Definition passes32 (similarity_threshold : float) (r : Doc) : Prop :=
  passes (round32 similarity_threshold) r.

Lemma build_results_kept self distances indices thr pairs results :
  build_results self distances indices thr pairs = Returned results ->
  (length results <= length pairs)%nat /\ Forall (passes32 thr) results.
Proof.
  revert results. induction pairs as [|[idx sim] rest IH]; intros results; simpl.
  - intros H. injection H as <-. split; [simpl; lia|constructor].
  - destruct (_ && _) eqn:Hkeep.
    + destruct (py_index (metadata self) idx) as [m|]; [|discriminate]. simpl.
      destruct (index_of idx indices) as [pos|]; [|discriminate]. simpl.
      destruct (py_index distances _) as [dist|]; [|discriminate]. simpl.
      destruct (build_results self distances indices thr rest) as [rs|] eqn:Hrest;
        [|discriminate].
      simpl. intros H. injection H as <-.
      destruct (IH _ eq_refl) as [Hlen Hall]. split; [simpl; lia|].
      constructor; [|exact Hall].
      apply andb_true_iff in Hkeep as [_ Hthr].
      exists sim. split; [|exact Hthr].
      rewrite lookup_insert_ne by discriminate. apply lookup_insert_eq.
    + intros H. destruct (IH _ H). split; [lia|assumption].
Qed.

(** With no index, or no stored record, retrieval answers at once. *)
Lemma retrieve_notes_unbuilt self query top_k thr :
  faiss_index self = None -> notes self query top_k thr = [].
Proof. intros H. unfold retrieve_notes. now rewrite H. Qed.

Lemma retrieve_notes_no_records self query top_k thr :
  metadata self = [] -> notes self query top_k thr = [].
Proof.
  intros H. unfold retrieve_notes. rewrite H.
  now destruct (faiss_index self).
Qed.

(** A failure of the embedding, or of the search, ends in the empty list. *)
Lemma retrieve_notes_embedding_failure self query top_k thr e :
  embed (VStr query) = Raised e -> notes self query top_k thr = [].
Proof.
  intros H. unfold retrieve_notes.
  destruct (faiss_index self); [|reflexivity].
  destruct (_ =? _)%nat; [reflexivity|]. now rewrite H.
Qed.

Lemma retrieve_notes_search_failure self ix query top_k thr v e :
  faiss_index self = Some ix -> embed (VStr query) = Returned v ->
  search ix (astype32 v) top_k = Raised e -> notes self query top_k thr = [].
Proof.
  intros Hix Hv Hs. unfold retrieve_notes. rewrite Hix.
  destruct (_ =? _)%nat; [reflexivity|]. rewrite Hv. simpl. now rewrite Hs.
Qed.

(** For every query, every [top_k >= 0] and every threshold,
    [retrieve_notes] returns at most [top_k] records, and each of them carries
    a similarity score that is at least the threshold taken to [float32]. *)
Lemma retrieve_notes_bounded (self : RAGSystem) (query : string) (top_k : Z)
    (similarity_threshold : float) :
  (0 <= top_k)%Z ->
  (Z.of_nat (length (retrieve_notes embedding_dim encode self query top_k
                                    similarity_threshold)) <= top_k)%Z
  /\ Forall (passes32 similarity_threshold)
            (retrieve_notes embedding_dim encode self query top_k similarity_threshold).
Proof.
  intros Hk. unfold retrieve_notes.
  destruct (faiss_index self) as [ix|]; [|split; [simpl; lia|constructor]].
  destruct (_ =? _)%nat; [split; [simpl; lia|constructor]|].
  destruct (embed_text _ _ (VStr query)) as [v|]; [|split; [simpl; lia|constructor]].
  simpl.
  destruct (search ix (astype32 v) top_k) as [[distances indices]|] eqn:Hs;
    [|split; [simpl; lia|constructor]].
  simpl. destruct (search_rows _ _ _ _ _ Hs) as [Hd Hi].
  destruct (build_results _ _ _ _ _) as [results|] eqn:Hb;
    [|split; [simpl; lia|constructor]].
  simpl. destruct (build_results_kept _ _ _ _ _ _ Hb) as [Hlen Hall].
  split; [|exact Hall].
  rewrite length_combine, length_map in Hlen. lia.
Qed.

(** *** The empty and the unbuilt index *)

Definition index_size (self : RAGSystem) : nat :=
  match faiss_index self with
  | Some ix => ntotal ix
  | None => 0
  end.

(** No [build_index] or [load_index] has succeeded yet. *)
Definition unbuilt (self : RAGSystem) : Prop := faiss_index self = None.

(** The index holds no vector, and as many records as vectors. *)
Definition empty_index (self : RAGSystem) : Prop :=
  index_size self = 0%nat /\ length (metadata self) = index_size self.

(** C9: for every query, every [top_k] and every threshold, [retrieve_notes]
    on an unbuilt or an empty index returns the empty list (the function is
    total: it returns a list on every input). *)
Theorem retrieve_notes_empty_or_unbuilt (self : RAGSystem) (query : string)
    (top_k : Z) (similarity_threshold : float) :
  unbuilt self \/ empty_index self ->
  retrieve_notes embedding_dim encode self query top_k similarity_threshold = [].
Proof.
  intros [H|[H0 Hm]].
  - now apply retrieve_notes_unbuilt.
  - apply retrieve_notes_no_records. rewrite H0 in Hm.
    now destruct (metadata self).
Qed.

(** *** Save and load *)


(** The system holds an index: some [build_index] or [load_index] has
    succeeded. *)
Definition built (self : RAGSystem) : Prop := exists ix, faiss_index self = Some ix.


(** *** Unit-scoped retrieval *)

(** Without a query nothing is written. *)
Lemma retrieve_by_unit_unranked self unit top_k :
  snd (retrieve_by_unit embedding_dim encode self unit None top_k) = self.
Proof.
  unfold retrieve_by_unit.
  destruct (filter_unit unit 0 (metadata self)) as [[|r refs]|]; reflexivity.
Qed.

End RetrievalProperties.

(** ** Context assembly *)

Section ContextProperties.

Variable float_repr : float -> string.
Variable float_percent : float -> string.
Variable tags_repr : list (string * string) -> string.

Local Abbreviation entry_of := (format_entry float_repr float_percent tags_repr).
Local Abbreviation entries_from := (format_entries float_repr float_percent tags_repr).

(** The entries of all the questions, the first one numbered [i]. *)
Fixpoint render_all (i : nat) (questions : list Doc) : outcome (list string) :=
  match questions with
  | [] => Returned []
  | q :: rest =>
      entry ← entry_of i q;
      entries ← render_all (S i) rest;
      Returned (entry :: entries)
  end.

(** The length of some entries taken together. *)
Definition total_length (entries : list string) : Z :=
  fold_right (fun entry acc => (Z.of_nat (String.length entry) + acc)%Z) 0%Z entries.

(** What follows the entries that were kept: nothing when all were, else the
    trailer with the number of those that were not. *)
Definition trailer (kept total : nat) : list string :=
  if (kept <? total)%nat then [more_questions (total - kept)] else [].

Lemma render_all_length i questions entries :
  render_all i questions = Returned entries -> length entries = length questions.
Proof.
  revert i entries. induction questions as [|q rest IH]; intros i entries; simpl.
  - now intros [= <-].
  - destruct (entry_of i q); [|discriminate]. simpl.
    destruct (render_all (S i) rest) eqn:E; [|discriminate]. simpl.
    intros [= <-]. simpl. f_equal. eauto.
Qed.

Lemma format_entries_shape total i questions so_far max entries :
  render_all i questions = Returned entries ->
  (total + 1 = i + length questions)%nat ->
  exists kept,
    (kept <= length entries)%nat
    /\ entries_from total i questions so_far max
       = Returned (firstn kept entries ++ trailer kept (length entries))
    /\ (forall j, (j < kept)%nat ->
          (so_far + total_length (firstn (S j) entries) <= max)%Z)
    /\ ((kept < length entries)%nat ->
          (so_far + total_length (firstn (S kept) entries) > max)%Z).
Proof.
  revert i so_far entries.
  induction questions as [|q rest IH]; intros i so_far entries; simpl.
  - intros [= <-] _. exists 0%nat. simpl.
    split; [lia|]. split; [reflexivity|]. split; lia.
  - destruct (entry_of i q) as [entry|]; [|discriminate]. simpl.
    destruct (render_all (S i) rest) as [es|] eqn:Hes; [|discriminate]. simpl.
    intros [= <-] Htotal.
    pose proof (render_all_length _ _ _ Hes) as Hlen.
    destruct (_ >? _)%Z eqn:Hcut.
    + exists 0%nat. unfold trailer. simpl.
      replace (total - i + 1)%nat with (S (length es)) by lia.
      split; [lia|]. split; [reflexivity|]. split; [lia|]. intros _. lia.
    + destruct (IH (S i) (so_far + Z.of_nat (String.length entry))%Z es Hes
                   ltac:(lia)) as (kept & Hk & Hrun & Hfit & Hover).
      exists (S kept). rewrite Hrun. simpl.
      split; [lia|]. split; [reflexivity|]. split.
      * intros [|j] Hj.
        -- simpl. lia.
        -- specialize (Hfit j ltac:(lia)). simpl in *. lia.
      * intros Hlt. specialize (Hover ltac:(lia)). simpl in *. lia.
Qed.

Lemma render_all_take i questions entries kept :
  render_all i questions = Returned entries ->
  render_all i (firstn kept questions) = Returned (firstn kept entries).
Proof.
  revert i entries kept. induction questions as [|q rest IH]; intros i entries kept; simpl.
  - intros [= <-]. now destruct kept.
  - destruct (entry_of i q) as [entry|] eqn:He; [|discriminate]. simpl.
    destruct (render_all (S i) rest) as [es|] eqn:Hes; [|discriminate]. simpl.
    intros [= <-]. destruct kept as [|k]; [reflexivity|]. simpl.
    rewrite He. simpl. now rewrite (IH _ _ k Hes).
Qed.

Lemma render_all_lookup i questions entries k :
  render_all i questions = Returned entries ->
  (k < length entries)%nat ->
  exists q entry,
    questions !! k = Some q /\ entries !! k = Some entry
    /\ entry_of (i + k) q = Returned entry.
Proof.
  revert i entries k. induction questions as [|q rest IH]; intros i entries k; simpl.
  - intros [= <-]. simpl. lia.
  - destruct (entry_of i q) as [entry|] eqn:He; [|discriminate]. simpl.
    destruct (render_all (S i) rest) as [es|] eqn:Hes; [|discriminate]. simpl.
    intros [= <-] Hk. destruct k as [|k].
    + exists q, entry. rewrite Nat.add_0_r. auto.
    + simpl in Hk. destruct (IH _ _ k Hes ltac:(lia)) as (q' & e' & ? & ? & He').
      exists q', e'. repeat split; auto.
      now replace (i + S k)%nat with (S i + k)%nat by lia.
Qed.

Lemma total_length_app l l' :
  total_length (l ++ l') = (total_length l + total_length l')%Z.
Proof. induction l as [|e l IH]; simpl; [reflexivity|]. rewrite IH. lia. Qed.

Lemma trailer_text kept total :
  trailer kept total
  = if (kept <? total)%nat
    then [String (ascii_of_N 10)
            ("... and " +:+ pretty (total - kept)%nat +:+ " more questions")]
    else [].
Proof. reflexivity. Qed.

(** The parts of the loop, given where it stops: the questions before the
    cut render and fit, and the question at the cut, if there is one,
    renders and does not fit.  The questions after the cut are not looked
    at. *)
Lemma format_entries_cut total i questions so_far max kept entries :
  (total + 1 = i + length questions)%nat ->
  (kept <= length questions)%nat ->
  render_all i (firstn kept questions) = Returned entries ->
  (forall j, (j < kept)%nat ->
     (so_far + total_length (firstn (S j) entries) <= max)%Z) ->
  ((kept < length questions)%nat ->
     exists q entry,
       questions !! kept = Some q /\ entry_of (i + kept) q = Returned entry
       /\ (so_far + total_length entries + Z.of_nat (String.length entry) > max)%Z) ->
  entries_from total i questions so_far max
  = Returned (entries ++ trailer kept (length questions)).
Proof.
  revert i so_far kept entries.
  induction questions as [|q rest IH]; intros i so_far kept entries Htotal Hk.
  - simpl in Hk. replace kept with 0%nat by lia. simpl. now intros [= <-].
  - destruct kept as [|k].
    + simpl. intros [= <-] _ Hover.
      destruct (Hover ltac:(lia)) as (q' & entry & [= <-] & Hentry & Hlong).
      rewrite Nat.add_0_r in Hentry. rewrite Hentry. simpl in *.
      match goal with |- context [(?a >? ?b)%Z] => destruct (Z.gtb_spec a b) end; [|lia].
      unfold trailer. simpl.
      now replace (total - i + 1)%nat with (S (length rest)) by lia.
    + cbn [firstn render_all format_entries].
      destruct (entry_of i q) as [entry|]; [|discriminate]. cbn [mbind outcome_bind].
      destruct (render_all (S i) (firstn k rest)) as [es|] eqn:Hes; [|discriminate].
      cbn [mbind outcome_bind]. intros [= <-] Hfit Hover.
      pose proof (Hfit 0%nat ltac:(lia)) as Hfirst. simpl in Hfirst.
      match goal with |- context [(?a >? ?b)%Z] => destruct (Z.gtb_spec a b) end; [lia|].
      rewrite (IH (S i) (so_far + Z.of_nat (String.length entry))%Z k es).
      * reflexivity.
      * simpl in Htotal. lia.
      * simpl in Hk. lia.
      * exact Hes.
      * intros j Hj. specialize (Hfit (S j) ltac:(lia)). simpl in *. lia.
      * intros Hlt. simpl in Hover.
        destruct (Hover ltac:(lia)) as (q' & e' & Hq' & He' & Hlong).
        exists q', e'. split; [exact Hq'|]. split.
        -- now replace (S i + k)%nat with (i + S k)%nat by lia.
        -- simpl in Hlong. lia.
Qed.

(** C8: [format_context] returns the empty string for no questions.
    Otherwise it returns the header, the separator line, the entries of the
    first [kept] questions whole and in order and, when some questions are
    left, one trailer, which is a line break and the text
    [... and N more questions] with [N] the number of the questions left out,
    all joined by line breaks.  The cut is at the first entry that does not
    fit: every kept entry fitted within [max_context_length] when it was
    added, and the entry of the first question left out did not; the later
    questions are not rendered.  (An entry is the rendered block of a
    question, with its excerpt of at most 500 characters.)  When all the
    questions render there is such a cut. *)
Theorem format_context_whole_entries (questions : list Doc) (max_context_length : Z) :
  format_context float_repr float_percent tags_repr [] max_context_length = Returned ""
  /\ (forall kept entries,
        questions <> [] ->
        (kept <= length questions)%nat ->
        render_all 1 (firstn kept questions) = Returned entries ->
        (forall j, (j < kept)%nat ->
           (total_length (firstn (S j) entries) <= max_context_length)%Z) ->
        ((kept < length questions)%nat ->
           exists q entry,
             questions !! kept = Some q
             /\ format_entry float_repr float_percent tags_repr (S kept) q = Returned entry
             /\ (total_length entries + Z.of_nat (String.length entry)
                 > max_context_length)%Z) ->
        format_context float_repr float_percent tags_repr questions max_context_length
        = Returned (PyStr.join (String (ascii_of_N 10) "")
            (["RELEVANT PAST PAPER QUESTIONS:";
              "--------------------------------------------------"]
             ++ entries
             ++ (if (kept <? length questions)%nat
                 then [String (ascii_of_N 10)
                         ("... and " +:+ pretty (length questions - kept)%nat
                          +:+ " more questions")]
                 else []))))
  /\ (forall entries,
        questions <> [] ->
        render_all 1 questions = Returned entries ->
        exists kept,
          (kept <= length questions)%nat
          /\ render_all 1 (firstn kept questions) = Returned (firstn kept entries)
          /\ (forall j, (j < kept)%nat ->
                (total_length (firstn (S j) (firstn kept entries)) <= max_context_length)%Z)
          /\ ((kept < length questions)%nat ->
                exists q entry,
                  questions !! kept = Some q
                  /\ format_entry float_repr float_percent tags_repr (S kept) q
                     = Returned entry
                  /\ (total_length (firstn kept entries) + Z.of_nat (String.length entry)
                      > max_context_length)%Z)).
Proof.
  split; [reflexivity|]. split.
  - intros kept entries Hne Hk Hentries Hfit Hover.
    destruct questions as [|q rest] eqn:Hq; [congruence|]. rewrite <- Hq in *.
    assert (Hrun : format_entries float_repr float_percent tags_repr (length questions) 1
                     questions 0 max_context_length
                   = Returned (entries ++ trailer kept (length questions))).
    { apply format_entries_cut; auto; lia. }
    unfold format_context. rewrite Hq at 1. rewrite Hrun. reflexivity.
  - intros entries Hne Hentries.
    pose proof (render_all_length _ _ _ Hentries) as Hlen.
    destruct (format_entries_shape (length questions) 1 questions 0 max_context_length
                entries Hentries ltac:(lia)) as (kept & Hk & _ & Hfit & Hover).
    exists kept. split; [lia|]. split; [now apply render_all_take|]. split.
    + intros j Hj. rewrite firstn_firstn.
      replace (Nat.min (S j) kept) with (S j) by lia. apply (Hfit j Hj).
    + intros Hlt. rewrite <- Hlen in Hlt.
      destruct (render_all_lookup _ _ _ _ Hentries Hlt) as (q & entry & Hq & He & Hentry).
      exists q, entry. split; [exact Hq|]. split; [exact Hentry|].
      specialize (Hover Hlt). rewrite (take_S_r _ _ _ He), total_length_app in Hover.
      simpl in Hover. lia.
Qed.

End ContextProperties.

(** ** Batches *)

Section BatchProperties.

Variable embedding_dim : nat.
Variable encode : string -> outcome Vec.
Variable float_repr : float -> string.
Variable float_percent : float -> string.
Variable tags_repr : list (string * string) -> string.
Variable Client : Type.
Variable mcp_answer : Client -> string -> option string -> string -> option string * Client.

Local Abbreviation answer :=
  (answer_question embedding_dim encode float_repr float_percent tags_repr Client mcp_answer).
Local Abbreviation batch_from :=
  (batch_loop embedding_dim encode float_repr float_percent tags_repr Client mcp_answer).
Local Abbreviation batch :=
  (batch_answer_questions embedding_dim encode float_repr float_percent tags_repr Client
     mcp_answer).

(** A stored record whose question is text (or absent). *)
Definition has_text (m : Doc) : Prop := exists s, get m "question" (VStr "") = VStr s.

(** The records of the orchestrator's index, if it has one, hold text. *)
Definition well_formed (self : MCPOrchestrator) : Prop :=
  forall rag, rag_system self = Some rag -> Forall has_text (metadata rag).

(** A retrieved record: a stored record with a score and a distance. *)
Definition scored_copy (rag : RAGSystem) (r : Doc) : Prop :=
  exists m sim dist,
    m ∈ metadata rag
    /\ r = <["distance" := VFloat dist]> (<["similarity_score" := VFloat sim]> m).

Lemma py_index_In {A : Type} (l : list A) i a : py_index l i = Returned a -> a ∈ l.
Proof.
  unfold py_index. destruct (_ <? 0)%Z; [discriminate|].
  destruct (l !! _) as [x|] eqn:E; [|discriminate].
  intros [= <-]. eapply list_elem_of_lookup_2, E.
Qed.

Lemma build_results_copies rag distances indices thr pairs results :
  build_results rag distances indices thr pairs = Returned results ->
  Forall (scored_copy rag) results.
Proof.
  revert results. induction pairs as [|[idx sim] rest IH]; intros results; simpl.
  - intros [= <-]. constructor.
  - destruct (_ && _).
    + destruct (py_index (metadata rag) idx) as [m|] eqn:Hm; [|discriminate]. simpl.
      destruct (index_of idx indices) as [pos|]; [|discriminate]. simpl.
      destruct (py_index distances _) as [dist|]; [|discriminate]. simpl.
      destruct (build_results rag distances indices thr rest) as [rs|]; [|discriminate].
      simpl. intros [= <-]. constructor; [|now apply IH].
      exists m, sim, dist. split; [|reflexivity]. eapply py_index_In, Hm.
    + apply IH.
Qed.

Lemma retrieve_notes_copies rag query top_k thr :
  Forall (scored_copy rag) (retrieve_notes embedding_dim encode rag query top_k thr).
Proof.
  unfold retrieve_notes.
  destruct (faiss_index rag) as [ix|]; [|constructor].
  destruct (_ =? _)%nat; [constructor|].
  destruct (embed_text _ _ _) as [v|]; [|constructor]. simpl.
  destruct (search ix (astype32 v) top_k) as [[distances indices]|]; [|constructor]. simpl.
  destruct (build_results _ _ _ _ _) as [results|] eqn:Hb; [|constructor].
  simpl. eapply build_results_copies, Hb.
Qed.

Lemma format_entry_returns rag i r :
  Forall has_text (metadata rag) -> scored_copy rag r ->
  exists entry, format_entry float_repr float_percent tags_repr i r = Returned entry.
Proof.
  intros Hall (m & sim & dist & Hm & ->).
  rewrite Forall_forall in Hall. destruct (Hall _ Hm) as [s Hs].
  unfold format_entry, get in *.
  rewrite (lookup_insert_ne _ "distance" "similarity_score") by discriminate.
  rewrite lookup_insert_eq.
  rewrite !(lookup_insert_ne _ _ "question") by discriminate.
  rewrite Hs. simpl. eauto.
Qed.

Lemma format_entries_returns rag total i rs so_far max :
  Forall has_text (metadata rag) -> Forall (scored_copy rag) rs ->
  exists parts,
    format_entries float_repr float_percent tags_repr total i rs so_far max = Returned parts.
Proof.
  intros Hall Hrs. revert i so_far.
  induction Hrs as [|r rs Hr _ IH]; intros i so_far; simpl; [eauto|].
  destruct (format_entry_returns rag i r Hall Hr) as [entry ->]. simpl.
  destruct (_ >? _)%Z; [eauto|].
  destruct (IH (S i) (so_far + Z.of_nat (String.length entry))%Z) as [parts ->].
  simpl. eauto.
Qed.

Lemma format_context_returns rag rs max :
  Forall has_text (metadata rag) -> Forall (scored_copy rag) rs ->
  exists context, format_context float_repr float_percent tags_repr rs max = Returned context.
Proof.
  intros Hall Hrs. unfold format_context. destruct rs as [|r rs]; [eauto|].
  destruct (format_entries_returns rag (length (r :: rs)) 1 (r :: rs) 0 max Hall Hrs)
    as [parts ->].
  simpl. eauto.
Qed.

Lemma answer_question_returns self client query mode use_rag top_k :
  well_formed self ->
  exists a client', answer self client query mode use_rag top_k = (Returned a, client').
Proof.
  intros Hwf. unfold answer_question.
  set (decision := match use_rag with Some b => b | None => _ end).
  destruct decision; [destruct (rag_system self) as [rag|] eqn:Hrag|].
  - destruct (retrieve_notes _ _ rag query top_k _) as [|r rs] eqn:Hr.
    + destruct (mcp_answer client query None mode) as [a c] eqn:E. eauto.
    + pose proof (retrieve_notes_copies rag query top_k 0.3%float) as Hc.
      rewrite Hr in Hc.
      destruct (format_context_returns rag (r :: rs) 2000 (Hwf _ Hrag) Hc) as [ctx ->].
      destruct (mcp_answer client _ _ mode) as [a c] eqn:E. eauto.
  - destruct (mcp_answer client query None mode) as [a c] eqn:E. eauto.
  - destruct (mcp_answer client query None mode) as [a c] eqn:E. eauto.
Qed.

(** The loop from any dictionary: its keys afterwards, the entries it leaves
    alone, and the answer kept for the last occurrence of a query. *)
Lemma batch_loop_map self mode use_rag queries :
  forall client (results m : gmap string (option string)) client',
  batch_from self client queries mode use_rag results = (Returned m, client') ->
  dom m = dom results ∪ list_to_set queries
  /\ (forall q, q ∉ queries -> m !! q = results !! q)
  /\ (forall pre q post, queries = pre ++ q :: post -> q ∉ post ->
        exists before client_before a client_after,
          batch_from self client pre mode use_rag results
            = (Returned before, client_before)
          /\ answer self client_before q mode (Some use_rag) 3
             = (Returned a, client_after)
          /\ m !! q = Some a).
Proof.
  induction queries as [|x rest IH]; intros client results m client'.
  - simpl. intros [= <- <-]. split; [set_solver|].
    split; [reflexivity|]. intros [|? ?] ? ? H; discriminate H.
  - cbn [batch_loop].
    destruct (answer self client x mode (Some use_rag) 3) as [[a|e] c1] eqn:Ha;
      [|discriminate].
    intros Hrun. destruct (IH _ _ _ _ Hrun) as (Hdom & Hkeep & Hlast).
    split; [|split].
    + rewrite Hdom, dom_insert_L. set_solver.
    + intros q Hq. rewrite Hkeep by set_solver.
      apply lookup_insert_ne. set_solver.
    + intros [|y pre] q post Heq Hpost; simpl in Heq; injection Heq as -> ->.
      * exists results, client, a, c1. split; [reflexivity|]. split; [exact Ha|].
        rewrite (Hkeep _ Hpost). apply lookup_insert_eq.
      * destruct (Hlast pre q post eq_refl Hpost) as (b & cb & a' & ca & Hb & Ha' & Hm).
        exists b, cb, a', ca. cbn [batch_loop]. rewrite Ha. auto.
Qed.

Lemma batch_loop_returns self mode use_rag queries :
  well_formed self ->
  forall client (results : gmap string (option string)),
  exists m client', batch_from self client queries mode use_rag results = (Returned m, client').
Proof.
  intros Hwf. induction queries as [|x rest IH]; intros client results.
  - simpl. eauto.
  - destruct (answer_question_returns self client x mode (Some use_rag) 3 Hwf)
      as (a & c1 & Ha).
    cbn [batch_loop]. rewrite Ha. apply IH.
Qed.

(** C10: whenever [batch_answer_questions] returns, it returns a dictionary
    whose keys are exactly the distinct queries of the list, and under a query
    it holds the answer its last occurrence produced: the answer
    [answer_question] gave in the state the client had after the queries
    before that occurrence.  It does return when the stored questions are
    text. *)
Theorem batch_answer_questions_last_wins (self : MCPOrchestrator) (client : Client)
    (queries : list string) (mode : string) (use_rag : bool) :
  (well_formed self ->
   exists results client',
     batch self client queries mode use_rag = (Returned results, client'))
  /\ (forall results client',
        batch self client queries mode use_rag = (Returned results, client') ->
        dom results = list_to_set queries
        /\ (forall pre q post, queries = pre ++ q :: post -> q ∉ post ->
              exists before client_before a client_after,
                batch self client pre mode use_rag = (Returned before, client_before)
                /\ answer self client_before q mode (Some use_rag) 3
                   = (Returned a, client_after)
                /\ results !! q = Some a)).
Proof.
  unfold batch_answer_questions. split.
  - intros Hwf. apply batch_loop_returns, Hwf.
  - intros results client' Hrun.
    destruct (batch_loop_map self mode use_rag queries _ _ _ _ Hrun)
      as (Hdom & _ & Hlast).
    split; [|exact Hlast]. rewrite Hdom, dom_empty_L. set_solver.
Qed.

End BatchProperties.

(** ** A sample system

    Three stored questions, two of unit BBIT106 (one spelled in lower case);
    an embedding on two axes; a provider that fails; an answer backend that
    numbers its calls. *)

Definition q_algorithms : Doc :=
  <["unit" := VStr "BBIT106"]> (<["year" := VInt 2019]>
    (<["question" := VStr "Describe two sorting algorithms."]> ∅)).

Definition q_network : Doc :=
  <["unit" := VStr "bbit106"]> (<["year" := VInt 2020]>
    (<["question" := VStr "Explain the OSI model."]> ∅)).

Definition q_dbms : Doc :=
  <["unit" := VStr "BBIT204"]> (<["year" := VInt 2021]>
    (<["question" := VStr "Define normalization."]> ∅)).

Definition sample_rag : RAGSystem :=
  {| faiss_index := Some {| dim := 2; xb := [[1; 0]; [0; 1]; [0; 1]]%float |};
     metadata := [q_algorithms; q_network; q_dbms];
     topic_cache := ∅;
     index_path := "data/rag_index.faiss";
     metadata_path := "data/rag_metadata.json" |}.

Definition axis_encode (text : string) : outcome Vec :=
  Returned (if contains "algorithm" (lower text) then [1; 0] else [0; 1])%float.

Definition failing_encode (text : string) : outcome Vec := Raised ProviderError.

(** [format(x, ".2%")] computed exactly: [x * 100] as a float, then rounded
    to two decimals, ties to even. *)
Definition percent_2dp (x : float) : string :=
  let digits (n : Z) : string :=
    pretty (n / 100)%Z +:+ "."
    +:+ (if (n mod 100 <? 10)%Z then "0" else "") +:+ pretty (n mod 100)%Z +:+ "%" in
  let sign (s : bool) : string := if s then "-" else "" in
  match Prim2SF (x * 100)%float with
  | S754_nan => "nan%"
  | S754_infinity s => sign s +:+ "inf%"
  | S754_zero s => sign s +:+ digits 0%Z
  | S754_finite s m e =>
      let num := (Z.pos m * 100)%Z in
      let n :=
        if (0 <=? e)%Z then (num * 2 ^ e)%Z
        else
          let den := (2 ^ (- e))%Z in
          let q := (num / den)%Z in
          let r := (num mod den)%Z in
          if (2 * r <? den)%Z then q
          else if (den <? 2 * r)%Z then (q + 1)%Z
          else if Z.even q then q else (q + 1)%Z in
      sign s +:+ digits n
  end.

(** Stand-ins for [repr] of a float and [str] of a tag record, which no
    sample below reaches. *)
Definition plain_repr (f : float) : string := "<float>".
Definition plain_tags (t : list (string * string)) : string := "<tags>".

Definition counting_client (calls : nat) (prompt : string) (context : option string)
    (mode : string) : option string * nat :=
  (Some ("answer " +:+ pretty calls), S calls).

Definition sample_orchestrator : MCPOrchestrator :=
  {| rag_system := Some sample_rag; use_rag_threshold := 0.5%float |}.

Example percent_2dp_samples :
  map percent_2dp [1; 0.33333333333333331; 0.875; 0.99999998000000045; 0.00125;
                   2.9387360522180373e-39; 0; (-0.5)]%float
  = ["100.00%"; "33.33%"; "87.50%"; "100.00%"; "0.12%"; "0.00%"; "0.00%"; "-50.00%"].
Proof. vm_compute. reflexivity. Qed.

Definition sample_results : list Doc :=
  retrieve_notes 2 axis_encode sample_rag "sorting algorithms" 5 0.3.

Definition sample_entries : list string :=
  [ PyStr.join nl [""; "[Q1] Unit: BBIT106, Year: 2019 (Relevance: 100.00%)";
                   "Describe two sorting algorithms."];
    PyStr.join nl [""; "[Q2] Unit: bbit106, Year: 2020 (Relevance: 33.33%)";
                   "Explain the OSI model."];
    PyStr.join nl [""; "[Q3] Unit: BBIT204, Year: 2021 (Relevance: 33.33%)";
                   "Define normalization."] ].

(** The search pads its rows to [k] entries; the padding fails the default
    threshold, and passes a threshold of zero as a copy of the last record. *)
Example search_sample :
  search {| dim := 2; xb := [[1; 0]; [0; 1]; [0; 1]]%float |} [1; 0]%float 5
  = Returned ([0; 2; 2; FLT_MAX; FLT_MAX]%float, [0; 1; 2; -1; -1]%Z).
Proof. vm_compute. reflexivity. Qed.

Example retrieve_notes_sample :
  map (fun r => (r !! "question", r !! "similarity_score", r !! "distance")) sample_results
  = [ (Some (VStr "Describe two sorting algorithms."), Some (VFloat 1), Some (VFloat 0));
      (Some (VStr "Explain the OSI model."), Some (VFloat 0.3333333432674408),
       Some (VFloat 2));
      (Some (VStr "Define normalization."), Some (VFloat 0.3333333432674408),
       Some (VFloat 2)) ]
  /\ length (retrieve_notes 2 axis_encode sample_rag "sorting algorithms" 5 0) = 5%nat
  /\ length (retrieve_notes 2 axis_encode sample_rag "sorting algorithms" 5 0.5) = 1%nat.
Proof. vm_compute. repeat split; reflexivity. Qed.

Example retrieve_notes_bounded_sample :
  (Z.of_nat (length (retrieve_notes 2 axis_encode sample_rag "sorting algorithms" 5 0.3))
   <= 5)%Z
  /\ Forall (passes32 0.3)
            (retrieve_notes 2 axis_encode sample_rag "sorting algorithms" 5 0.3).
Proof.
  apply (retrieve_notes_bounded 2 axis_encode sample_rag "sorting algorithms" 5 0.3). lia.
Qed.

(** C1: [retrieve_notes] returns at most [top_k] records, each with a
    similarity score that is at least the threshold.  The bound on the number
    holds; the scores are compared as [float32] and stored as Python floats,
    and with the threshold 0.33333335 the sample system returns, after its
    best match, two records whose stored score 0.3333333432674408 is below
    the threshold. *)
Theorem retrieve_notes_below_threshold :
  let results := retrieve_notes 2 axis_encode sample_rag "sorting algorithms" 3 0.33333335 in
  map (fun r => r !! "similarity_score") results
  = [Some (VFloat 1); Some (VFloat 0.3333333432674408); Some (VFloat 0.3333333432674408)]
  /\ PrimFloat.leb 0.33333335 0.3333333432674408 = false
  /\ ~ Forall (passes 0.33333335) results.
Proof.
  cbv zeta. split; [vm_compute; reflexivity|]. split; [vm_compute; reflexivity|].
  intros H.
  assert (Hscores : Forall (fun o => exists s, o = Some (VFloat s)
                                      /\ PrimFloat.leb 0.33333335 s = true)
            (map (fun r : Doc => r !! "similarity_score")
               (retrieve_notes 2 axis_encode sample_rag "sorting algorithms" 3 0.33333335))).
  { apply Forall_map. eapply Forall_impl; [exact H|]. intros r Hr. exact Hr. }
  vm_compute in Hscores.
  inversion Hscores as [|? ? _ Hrest]; subst.
  inversion Hrest as [|? ? (s & Hs & Hle) _]; subst.
  injection Hs as <-. vm_compute in Hle. discriminate Hle.
Qed.

Lemma retrieve_notes_empty_or_unbuilt_witness :
  (unbuilt (new_rag "data/rag_index.faiss" "data/rag_metadata.json")
   \/ empty_index (new_rag "data/rag_index.faiss" "data/rag_metadata.json"))
  /\ retrieve_notes 2 axis_encode (new_rag "data/rag_index.faiss" "data/rag_metadata.json")
       "sorting algorithms" 5 0.3 = [].
Proof.
  assert (H : unbuilt (new_rag "data/rag_index.faiss" "data/rag_metadata.json")
              \/ empty_index (new_rag "data/rag_index.faiss" "data/rag_metadata.json"))
    by (left; reflexivity).
  split; [exact H|].
  exact (retrieve_notes_empty_or_unbuilt 2 axis_encode _ "sorting algorithms" 5 0.3 H).
Defined.

(** An index that was built and holds nothing is empty as well. *)
Example empty_index_sample :
  empty_index {| faiss_index := Some {| dim := 2; xb := [] |}; metadata := [];
                 topic_cache := ∅; index_path := "i"; metadata_path := "m" |}.
Proof. split; reflexivity. Qed.



(** C4: retrieval never raises; an embedding failure gives the empty list.
    [retrieve_notes] does so; [retrieve_by_unit] has no handler, and with a
    query the failure of the embedding provider reaches the caller. *)
Theorem retrieve_by_unit_raises :
  retrieve_notes 2 failing_encode sample_rag "sorting algorithms" 5 0.3 = []
  /\ retrieve_by_unit 2 failing_encode sample_rag "BBIT106" (Some "sorting algorithms") 2
     = (Raised ProviderError, sample_rag).
Proof. vm_compute. split; reflexivity. Qed.

(** C7: retrieval leaves the stored records as they are.  [retrieve_notes]
    works on copies and an unranked [retrieve_by_unit] writes nothing, but a
    ranked [retrieve_by_unit] assigns ["similarity_score"] in the stored
    records of the unit themselves. *)
Theorem retrieve_by_unit_writes_store :
  let after :=
    snd (retrieve_by_unit 2 axis_encode sample_rag "BBIT106" (Some "sorting algorithms") 2) in
  map (fun m => m !! "similarity_score") (metadata sample_rag) = [None; None; None]
  /\ map (fun m => m !! "similarity_score") (metadata after)
     = [Some (VFloat 1); Some (VFloat 0); None]
  /\ metadata after <> metadata sample_rag
  /\ snd (retrieve_by_unit 2 axis_encode sample_rag "BBIT106" None 2) = sample_rag.
Proof.
  cbv zeta. split; [vm_compute; reflexivity|]. split; [vm_compute; reflexivity|]. split.
  - intros H.
    apply (f_equal (map (fun m : Doc => m !! "similarity_score"))) in H.
    vm_compute in H. discriminate H.
  - vm_compute. reflexivity.
Qed.

Example retrieve_by_unit_sample :
  fst (retrieve_by_unit 2 axis_encode sample_rag "BBIT106" (Some "osi layers") 1)
  = Returned [<["similarity_score" := VFloat 1]> q_network]
  /\ fst (retrieve_by_unit 2 axis_encode sample_rag "bbit106" None (-1))
     = Returned [q_algorithms].
Proof. vm_compute. split; reflexivity. Qed.

Example render_all_sample :
  render_all plain_repr percent_2dp plain_tags 1 sample_results = Returned sample_entries
  /\ map String.length sample_entries = [85; 74; 73]%nat.
Proof. vm_compute. split; reflexivity. Qed.

Example format_context_sample :
  format_context plain_repr percent_2dp plain_tags sample_results 150
  = Returned (PyStr.join nl
      [ "RELEVANT PAST PAPER QUESTIONS:";
        "--------------------------------------------------";
        ""; "[Q1] Unit: BBIT106, Year: 2019 (Relevance: 100.00%)";
        "Describe two sorting algorithms.";
        ""; "... and 2 more questions" ])
  /\ format_context plain_repr percent_2dp plain_tags [] 150 = Returned "".
Proof. vm_compute. split; reflexivity. Qed.

Lemma format_context_whole_entries_witness :
  format_context plain_repr percent_2dp plain_tags sample_results 150
  = Returned (PyStr.join (String (ascii_of_N 10) "")
      (["RELEVANT PAST PAPER QUESTIONS:";
        "--------------------------------------------------"]
       ++ firstn 1 sample_entries
       ++ (if (1 <? length sample_results)%nat
           then [String (ascii_of_N 10)
                   ("... and " +:+ pretty (length sample_results - 1)%nat
                    +:+ " more questions")]
           else []))).
Proof.
  apply (proj1 (proj2 (format_context_whole_entries plain_repr percent_2dp plain_tags
                         sample_results 150)) 1%nat (firstn 1 sample_entries)).
  - intros H. apply (f_equal (@length Doc)) in H. vm_compute in H. discriminate H.
  - vm_compute. lia.
  - vm_compute. reflexivity.
  - intros j Hj. replace j with 0%nat by lia. vm_compute. discriminate.
  - intros _. exists (nth 1 sample_results ∅), (nth 1 sample_entries "").
    split; [vm_compute; reflexivity|]. split; vm_compute; reflexivity.
Defined.

Lemma sample_orchestrator_well_formed : well_formed sample_orchestrator.
Proof.
  intros rag [= <-]. repeat constructor; eexists; vm_compute; reflexivity.
Defined.

Lemma batch_answer_questions_last_wins_witness :
  well_formed sample_orchestrator
  /\ (exists results client',
        batch_answer_questions 2 axis_encode plain_repr percent_2dp plain_tags nat
          counting_client sample_orchestrator 0%nat ["A"; "B"; "A"] "exam" true
        = (Returned results, client')).
Proof.
  split; [exact sample_orchestrator_well_formed|].
  exact (proj1 (batch_answer_questions_last_wins 2 axis_encode plain_repr percent_2dp
                  plain_tags nat counting_client sample_orchestrator 0%nat
                  ["A"; "B"; "A"] "exam" true)
               sample_orchestrator_well_formed).
Defined.

(** Scenario 6: two keys, and "A" holds the answer to its second occurrence
    (the third call of the backend). *)
Example batch_scenario6 :
  let results :=
    match fst (batch_answer_questions 2 axis_encode plain_repr percent_2dp plain_tags nat
                 counting_client sample_orchestrator 0%nat ["A"; "B"; "A"] "exam" true) with
    | Returned m => m
    | Raised _ => ∅
    end in
  map_to_list results = [("A", Some "answer 2"); ("B", Some "answer 1")].
Proof. vm_compute. reflexivity. Qed.

(** * The rest of the index life cycle

    [cache_topic], [get_cached_topic], [build_index], [update_index] and
    [initialize_rag_system] of [scripts/rag.py], with [embed_texts] and
    [embed_questions] of [scripts/embeddings.py]. *)

Definition set_topic_cache (self : RAGSystem) (cache : gmap string (list Doc)) : RAGSystem :=
  {| faiss_index := faiss_index self; metadata := metadata self;
     topic_cache := cache;
     index_path := index_path self; metadata_path := metadata_path self |}.

(** [RAGSystem.cache_topic].  The cache holds the list as it is at the call;
    that the code keeps the caller's own list, whose records a later ranked
    [retrieve_by_unit] may write to when they are stored records, is not
    tracked. *)
Definition cache_topic (self : RAGSystem) (topic : string) (questions : list Doc)
  : RAGSystem :=
  set_topic_cache self (<[PyStr.lower topic := questions]> (topic_cache self)).

(** [RAGSystem.get_cached_topic]. *)
Definition get_cached_topic (self : RAGSystem) (topic : string) : option (list Doc) :=
  topic_cache self !! PyStr.lower topic.

(** The record [embed_questions] keeps of a question. *)
Definition question_record (q : Doc) : Doc :=
  <["question" := get q "question" (VStr "")]>
  (<["unit" := get q "unit" (VStr "Unknown")]>
  (<["year" := get q "year" (VStr "Unknown")]>
  (<["course" := get q "course" (VStr "Unknown")]>
  (<["source_file" := get q "source_file" (VStr "Unknown")]>
  (<["question_number" := get q "question_number" (VInt 0)]>
  (<["metadata" := get q "metadata" (VTags [])]> ∅)))))).

(** [t if t and isinstance(t, str) else ""], then [t[:2000]]. *)
Definition valid_text (t : value) : string :=
  match t with
  | VStr s => PyStr.take 2000 s
  | _ => ""
  end.

(** The rows of a two-dimensional array all have the length of the first. *)
Definition rectangular (rows : list Vec) : bool :=
  match rows with
  | [] => true
  | r :: _ => forallb (fun r' => (length r' =? length r)%nat) rows
  end.

(** [embeddings.shape[1]]; an array without rows has one dimension only. *)
Definition shape1 (rows : list Vec) : outcome nat :=
  match rows with
  | [] => Raised IndexError
  | r :: _ => Returned (length r)
  end.

(** [faiss.IndexFlatL2(d)]. *)
Definition new_index (d : nat) : IndexFlatL2 := {| dim := d; xb := [] |}.

(** [index.add(x)]: the wrapper unpacks [n, d = x.shape] and asserts
    [d == self.d]; the vectors go to the end of the storage. *)
Definition index_add (ix : IndexFlatL2) (rows : list Vec) : outcome IndexFlatL2 :=
  match rows with
  | [] => Raised ValueError
  | r :: _ =>
      if (length r =? dim ix)%nat
      then Returned {| dim := dim ix; xb := xb ix ++ rows |}
      else Raised AssertionError
  end.

Section Indexing.

Variable encode : string -> outcome Vec.

(** [model.encode(texts)] on a list: one row per text, in order. *)
Fixpoint encode_all (texts : list string) : outcome (list Vec) :=
  match texts with
  | [] => Returned []
  | t :: rest =>
      row ← encode t;
      rows ← encode_all rest;
      Returned (row :: rows)
  end.

(** [EmbeddingGenerator.embed_texts]: the array of the rows. *)
Definition embed_texts (texts : list value) : outcome (list Vec) :=
  let valid_texts := map valid_text texts in
  rows ← encode_all valid_texts;
  if rectangular rows then Returned rows else Raised ValueError.

(** [EmbeddingGenerator.embed_questions]. *)
Definition embed_questions (questions : list Doc) : outcome (list Vec * list Doc) :=
  let question_texts := map (fun q => get q "question" (VStr "")) questions in
  embeddings ← embed_texts question_texts;
  let metadata := map question_record questions in
  Returned (embeddings, metadata).

(** [RAGSystem.build_index]: the result and the system afterwards.  The new
    index is assigned before the vectors are added. *)
Definition build_index (self : RAGSystem) (questions : list Doc) : bool * RAGSystem :=
  match embed_questions questions with
  | Raised _ => (false, self)
  | Returned (embeddings, metadata) =>
      match shape1 embeddings with
      | Raised _ => (false, self)
      | Returned embedding_dim =>
          let self := set_faiss_index self (Some (new_index embedding_dim)) in
          let embeddings_float32 := map astype32 embeddings in
          match index_add (new_index embedding_dim) embeddings_float32 with
          | Raised _ => (false, self)
          | Returned ix => (true, set_metadata (set_faiss_index self (Some ix)) metadata)
          end
      end
  end.

(** [RAGSystem.update_index]. *)
Definition update_index (self : RAGSystem) (new_questions : list Doc)
  : bool * RAGSystem :=
  match embed_questions new_questions with
  | Raised _ => (false, self)
  | Returned (new_embeddings, new_metadata) =>
      match faiss_index self with
      | None => (false, self)
      | Some ix =>
          let new_embeddings_float32 := map astype32 new_embeddings in
          match index_add ix new_embeddings_float32 with
          | Raised _ => (false, self)
          | Returned ix =>
              (true, set_metadata (set_faiss_index self (Some ix))
                       (metadata self ++ new_metadata))
          end
      end
  end.

(** [initialize_rag_system]: the system (or [None]) and the files afterwards.
    [RAGSystem()] builds the [EmbeddingGenerator], which encodes ["test"]
    and lets a failure out; the paths are the constructor's defaults.
    [source] is what [load_questions().get_all_questions()] gives when it is
    called.  The result of [save_index] is not looked at. *)
Definition initialize_rag_system (force_rebuild : bool) (source : outcome (list Doc))
    (fs : FS) : option RAGSystem * FS :=
  match encode "test" with
  | Raised _ => (None, fs)
  | Returned test_embedding =>
      let rag := new_rag "data/rag_index.faiss" "data/rag_metadata.json" in
      let '(loaded, rag) := if force_rebuild then (false, rag) else load_index rag fs in
      if loaded then (Some rag, fs)
      else
        match source with
        | Raised _ => (None, fs)
        | Returned questions =>
            let '(built, rag) := build_index rag questions in
            if built then (Some rag, snd (save_index rag fs)) else (None, fs)
        end
  end.

End Indexing.

(** ** The topic cache *)

Lemma lower_char_idempotent c : lower_char (lower_char c) = lower_char c.
Proof. destruct c as [[] [] [] [] [] [] [] []]; reflexivity. Qed.

Lemma lower_idempotent s : lower (lower s) = lower s.
Proof.
  induction s as [|c r IH]; simpl; [reflexivity|].
  now rewrite lower_char_idempotent, IH.
Qed.

(** X1: a topic cached under a name is found again under that name, under
    its lower-case form, and under every name with the same lower-case
    form. *)
Theorem cached_topic_any_case (self : RAGSystem) (topic : string) (questions : list Doc) :
  get_cached_topic (cache_topic self topic questions) topic = Some questions
  /\ get_cached_topic (cache_topic self topic questions) (lower topic) = Some questions
  /\ (forall topic', lower topic' = lower topic ->
        get_cached_topic (cache_topic self topic questions) topic' = Some questions).
Proof.
  unfold get_cached_topic, cache_topic. simpl.
  rewrite lower_idempotent, lookup_insert_eq. split; [reflexivity|]. split; [reflexivity|].
  intros topic' ->. apply lookup_insert_eq.
Qed.

(** X2: the cache is keyed by the lower-cased name.  A second write under a
    name that differs at most in case replaces the first; a name that differs
    otherwise is read as before the write; the index and the stored records
    are not touched. *)
Theorem cache_topic_overwrites (self : RAGSystem) (topic topic' : string)
    (first second : list Doc) :
  (lower topic' = lower topic ->
   get_cached_topic (cache_topic (cache_topic self topic first) topic' second) topic
   = Some second)
  /\ (lower topic' <> lower topic ->
      get_cached_topic (cache_topic self topic first) topic' = get_cached_topic self topic')
  /\ faiss_index (cache_topic self topic first) = faiss_index self
  /\ metadata (cache_topic self topic first) = metadata self.
Proof.
  unfold get_cached_topic, cache_topic. simpl. split; [|split; [|split; reflexivity]].
  - intros ->. apply lookup_insert_eq.
  - intros H. apply lookup_insert_ne. congruence.
Qed.

(** A name never cached is not found. *)
Example cache_topic_sample :
  length <$> get_cached_topic (cache_topic sample_rag "OOP" [q_algorithms]) "oop" = Some 1%nat
  /\ length <$> get_cached_topic (cache_topic sample_rag "OOP" [q_algorithms]) "Oop " = None
  /\ length <$> get_cached_topic sample_rag "OOP" = None.
Proof. vm_compute. repeat split; reflexivity. Qed.

(** ** Building and updating the index *)

Section IndexingProperties.

Variable encode : string -> outcome Vec.

Lemma encode_all_length texts rows :
  encode_all encode texts = Returned rows -> length rows = length texts.
Proof.
  revert rows. induction texts as [|t rest IH]; intros rows; simpl.
  - now intros [= <-].
  - destruct (encode t); [|discriminate]. simpl.
    destruct (encode_all encode rest); [|discriminate]. simpl.
    intros [= <-]. simpl. f_equal. now apply IH.
Qed.

Lemma embed_questions_rows questions embeddings records :
  embed_questions encode questions = Returned (embeddings, records) ->
  length embeddings = length questions
  /\ rectangular embeddings = true
  /\ records = map question_record questions.
Proof.
  unfold embed_questions, embed_texts.
  destruct (encode_all encode _) as [rows|] eqn:E; [|discriminate]. simpl.
  destruct (rectangular rows) eqn:R; [|discriminate]. simpl.
  intros [= <- <-]. apply encode_all_length in E.
  rewrite !length_map in E. auto.
Qed.



Lemma index_add_float32 r rows :
  index_add (new_index (length r)) (map astype32 (r :: rows))
  = Returned {| dim := length r; xb := map astype32 (r :: rows) |}.
Proof.
  unfold index_add, astype32 at 1. simpl map at 1.
  cbn [new_index dim xb]. now rewrite length_map, Nat.eqb_refl.
Qed.

(** X4: a successful [build_index] leaves an index with one vector per
    question and the records of the questions, in order, as metadata: the
    two counts agree.  The paths and the topic cache stay. *)
Theorem build_index_consistent (self self' : RAGSystem) (questions : list Doc) :
  build_index encode self questions = (true, self') ->
  index_size self' = length questions
  /\ metadata self' = map question_record questions
  /\ index_size self' = length (metadata self')
  /\ index_path self' = index_path self
  /\ metadata_path self' = metadata_path self
  /\ topic_cache self' = topic_cache self.
Proof.
  unfold build_index.
  destruct (embed_questions encode questions) as [[embeddings records]|] eqn:E;
    [|discriminate].
  destruct (embed_questions_rows _ _ _ E) as (Hlen & Hrect & ->).
  destruct embeddings as [|r rows]; [discriminate|]. simpl shape1. cbv iota beta zeta.
  rewrite index_add_float32.
  intros [= <-]. unfold index_size, ntotal. cbn [set_metadata set_faiss_index faiss_index metadata xb index_path metadata_path topic_cache].
  cbn [map length] in *. rewrite ?length_map.
  split; [exact Hlen|]. split; [reflexivity|]. split; [exact Hlen|].
  repeat split.
Qed.

(** X5: a failed [build_index] leaves the system as it was. *)
Theorem build_index_failure (self self' : RAGSystem) (questions : list Doc) :
  build_index encode self questions = (false, self') -> self' = self.
Proof.
  unfold build_index.
  destruct (embed_questions encode questions) as [[embeddings records]|] eqn:E;
    [|now intros [= <-]].
  destruct (embed_questions_rows _ _ _ E) as (Hlen & Hrect & ->).
  destruct embeddings as [|r rows]; [now intros [= <-]|]. simpl shape1. cbv iota beta zeta.
  rewrite index_add_float32. discriminate.
Qed.


(** X7: [update_index] fails on a system without an index, and a failed
    [update_index] leaves the system as it was. *)
Theorem update_index_failure (self : RAGSystem) (new_questions : list Doc) :
  (faiss_index self = None -> update_index encode self new_questions = (false, self))
  /\ (forall self', update_index encode self new_questions = (false, self') ->
        self' = self).
Proof.
  unfold update_index. split.
  - intros ->. now destruct (embed_questions _ _) as [[? ?]|].
  - intros self'.
    destruct (embed_questions _ _) as [[rows records]|]; [|now intros [= <-]].
    destruct (faiss_index self); [|now intros [= <-]].
    destruct (index_add _ _); [discriminate|now intros [= <-]].
Qed.

End IndexingProperties.

(** ** Files and initialization *)




(** A system that was never built is saved with success, and the load of
    what was written fails, after it has replaced the records. *)
Example save_index_unbuilt :
  let fresh := new_rag "i" "m" in
  let stale := set_metadata fresh [q_dbms] in
  save_index fresh ∅ = (true, <["m" := JsonFile []]> (<["i" := FaissFile None]> ∅))
  /\ fst (load_index stale (snd (save_index fresh ∅))) = false
  /\ metadata (snd (load_index stale (snd (save_index fresh ∅)))) = [].
Proof. vm_compute. repeat split; reflexivity. Qed.

Lemma load_index_paths self fs :
  index_path (snd (load_index self fs)) = index_path self
  /\ metadata_path (snd (load_index self fs)) = metadata_path self
  /\ topic_cache (snd (load_index self fs)) = topic_cache self.
Proof.
  unfold load_index.
  destruct (fs !! index_path self) as [[ix| | |]|]; simpl; auto.
  destruct (fs !! metadata_path self) as [[| | |]|]; simpl; auto;
    destruct ix; simpl; auto.
Qed.

(** X9: without an index file [load_index] fails and leaves the system as it
    was.  A [load_index] that succeeds has found an index in the index file
    and holds it, and holds the records of the metadata file when there is
    one and the records it had when there is none.  The paths and the topic
    cache stay in every case. *)
Theorem load_index_result (self : RAGSystem) (fs : FS) :
  (fs !! index_path self = None -> load_index self fs = (false, self))
  /\ (forall self', load_index self fs = (true, self') ->
        exists ix,
          fs !! index_path self = Some (FaissFile (Some ix))
          /\ faiss_index self' = Some ix
          /\ ((fs !! metadata_path self = None /\ metadata self' = metadata self)
              \/ (exists docs, fs !! metadata_path self = Some (JsonFile docs)
                               /\ metadata self' = docs)))
  /\ index_path (snd (load_index self fs)) = index_path self
  /\ metadata_path (snd (load_index self fs)) = metadata_path self
  /\ topic_cache (snd (load_index self fs)) = topic_cache self.
Proof.
  split; [|split; [|apply load_index_paths]].
  - unfold load_index. now intros ->.
  - intros self'. unfold load_index.
    destruct (fs !! index_path self) as [[ix| | |]|]; try discriminate.
    cbn [set_faiss_index metadata_path].
    destruct (fs !! metadata_path self) as [[|docs| |]|]; try discriminate;
      cbn [set_metadata set_faiss_index faiss_index];
      (destruct ix as [ix|]; [|discriminate]); intros [= <-]; exists ix;
      (split; [reflexivity|]); (split; [reflexivity|]).
    + right. eauto.
    + left. auto.
Qed.

Section InitializationProperties.

Variable embedding_dim : nat.
Variable encode : string -> outcome Vec.

(** X10: when the embedding provider answers, the index file holds an index
    and there is no metadata file, [load_index] succeeds all the same;
    [initialize_rag_system] then returns a system with the stored vectors and
    no record, without building anything, and on that system [retrieve_notes]
    returns the empty list for every query. *)
Theorem initialize_without_sidecar (source : outcome (list Doc)) (fs : FS)
    (ix : IndexFlatL2) (test_embedding : Vec) :
  encode "test" = Returned test_embedding ->
  fs !! "data/rag_index.faiss" = Some (FaissFile (Some ix)) ->
  fs !! "data/rag_metadata.json" = None ->
  exists rag,
    initialize_rag_system encode false source fs = (Some rag, fs)
    /\ faiss_index rag = Some ix
    /\ metadata rag = []
    /\ forall query top_k threshold,
         retrieve_notes embedding_dim encode rag query top_k threshold = [].
Proof.
  intros Ht Hi Hm. unfold initialize_rag_system, load_index. rewrite Ht. simpl.
  rewrite Hi. simpl. rewrite Hm. eexists. split; [reflexivity|].
  split; [reflexivity|]. split; [reflexivity|].
  intros. reflexivity.
Qed.

(** When the embedding provider fails, the constructor fails and there is no
    system, whatever the files hold. *)
Lemma initialize_provider_failure force_rebuild source fs e :
  encode "test" = Raised e ->
  initialize_rag_system encode force_rebuild source fs = (None, fs).
Proof. intros H. unfold initialize_rag_system. now rewrite H. Qed.



(** X13: when [initialize_rag_system] gives no system it has written no
    file; and with a rebuild forced, or no index file to load, a failing
    question source gives no system. *)
Theorem initialize_failure (force_rebuild : bool) (source : outcome (list Doc)) (fs : FS) :
  (forall fs', initialize_rag_system encode force_rebuild source fs = (None, fs') ->
               fs' = fs)
  /\ (forall e, source = Raised e ->
        force_rebuild = true \/ fs !! "data/rag_index.faiss" = None ->
        initialize_rag_system encode force_rebuild source fs = (None, fs)).
Proof.
  unfold initialize_rag_system.
  destruct (encode "test") as [test_embedding|];
    [|split; [now intros fs' [= <-]|reflexivity]].
  set (fresh := new_rag "data/rag_index.faiss" "data/rag_metadata.json").
  split.
  - intros fs'.
    destruct (if force_rebuild then (false, fresh) else load_index fresh fs)
      as [loaded rag1].
    destruct loaded; [discriminate|].
    destruct source as [questions|]; [|now intros [= <-]].
    destruct (build_index encode rag1 questions) as [[] rag2];
      [discriminate|now intros [= <-]].
  - intros e -> [->|Hnone]; [reflexivity|].
    destruct force_rebuild; [reflexivity|].
    unfold load_index. subst fresh. simpl. now rewrite Hnone.
Qed.

End InitializationProperties.

(** ** Unit-scoped retrieval, continued *)

(** The test of the comprehension in [retrieve_by_unit], on a record whose
    unit is text. *)
Definition unit_matches (unit : string) (m : Doc) : bool :=
  match get m "unit" (VStr "") with
  | VStr u => bool_decide (upper u = upper unit)
  | _ => false
  end.

(** The unit of a record is text (or absent). *)
Definition text_unit (m : Doc) : Prop := exists u, get m "unit" (VStr "") = VStr u.

Lemma insert_by_perm {A : Type} (before : A -> A -> bool) e (l : list A) :
  insert_by before e l ≡ₚ e :: l.
Proof.
  induction l as [|h t IH]; simpl; [reflexivity|].
  destruct (before e h); [reflexivity|].
  rewrite IH. apply Permutation_swap.
Qed.

Lemma stable_sort_perm {A : Type} (before : A -> A -> bool) (l : list A) :
  stable_sort before l ≡ₚ l.
Proof.
  induction l as [|h t IH]; simpl; [reflexivity|].
  unfold stable_sort in *. simpl. now rewrite insert_by_perm, IH.
Qed.

Lemma py_slice_to_sublist {A : Type} (l : list A) k :
  (forall x, x ∈ py_slice_to l k -> x ∈ l)
  /\ ((0 <= k)%Z -> (Z.of_nat (length (py_slice_to l k)) <= k)%Z).
Proof.
  unfold py_slice_to. split.
  - intros x. destruct (k <? 0)%Z; apply subseteq_take.
  - intros Hk. destruct (Z.ltb_spec k 0); [lia|].
    rewrite length_take. lia.
Qed.

Section UnitProperties.

Variable embedding_dim : nat.
Variable encode : string -> outcome Vec.

Local Abbreviation by_unit := (retrieve_by_unit embedding_dim encode).

(** The references [filter_unit] returns: the positions, counted from [i], of
    the records that match. *)
Lemma filter_unit_refs unit i ms refs :
  filter_unit unit i ms = Returned refs ->
  Forall text_unit ms
  /\ forall r, r ∈ refs ->
       exists m, ms !! (r - i)%nat = Some m /\ (i <= r)%nat /\ unit_matches unit m = true.
Proof.
  revert i refs. induction ms as [|m rest IH]; intros i refs; simpl.
  - intros [= <-]. split; [constructor|]. intros r Hr. inversion Hr.
  - unfold str_upper at 1. destruct (get m "unit" (VStr "")) as [| | |u|] eqn:Hu;
      try discriminate. simpl.
    destruct (filter_unit unit (S i) rest) as [refs'|] eqn:Hrest; [|discriminate].
    simpl. intros [= <-]. destruct (IH _ _ Hrest) as [Hall Hrefs].
    split; [constructor; [now exists u|exact Hall]|].
    assert (Hrest' : forall r, r ∈ refs' ->
              exists m', (m :: rest) !! (r - i)%nat = Some m' /\ (i <= r)%nat
                         /\ unit_matches unit m' = true).
    { intros r Hr. destruct (Hrefs r Hr) as (m' & Hm' & Hle & Hmatch).
      exists m'. split; [|split; [lia|exact Hmatch]].
      replace (r - i)%nat with (S (r - S i)) by lia. exact Hm'. }
    destruct (bool_decide _) eqn:Heq; [|exact Hrest'].
    intros r Hr. apply elem_of_cons in Hr as [->|Hr]; [|now apply Hrest'].
    exists m. rewrite Nat.sub_diag. split; [reflexivity|]. split; [lia|].
    unfold unit_matches. now rewrite Hu.
Qed.

(** Read through the store, the references are the matching records. *)
Lemma filter_unit_deref unit pre ms refs :
  filter_unit unit (length pre) ms = Returned refs ->
  deref (pre ++ ms) refs = List.filter (unit_matches unit) ms
  /\ length refs = length (List.filter (unit_matches unit) ms).
Proof.
  revert pre refs. induction ms as [|m rest IH]; intros pre refs.
  - simpl. intros [= <-]. auto.
  - cbn [filter_unit List.filter]. unfold str_upper at 1.
    destruct (get m "unit" (VStr "")) as [| | |u|] eqn:Hu; try discriminate.
    assert (Hm : unit_matches unit m = bool_decide (upper u = upper unit))
      by (unfold unit_matches; now rewrite Hu).
    rewrite Hm. cbn [mbind outcome_bind].
    destruct (filter_unit unit (S (length pre)) rest) as [refs'|] eqn:Hrest;
      [|discriminate].
    cbn [mbind outcome_bind]. intros [= <-].
    specialize (IH (pre ++ [m]) refs').
    rewrite length_app, Nat.add_1_r, <- app_assoc in IH. cbn [app] in IH.
    destruct (IH Hrest) as [IH1 IH2].
    destruct (bool_decide _); [|auto].
    unfold deref in *. cbn [omap list_omap length].
    rewrite lookup_app_r by lia. rewrite Nat.sub_diag. cbn [lookup list_lookup].
    rewrite IH1, IH2. auto.
Qed.

Lemma filter_unit_raises unit i ms :
  Exists (fun m => ~ text_unit m) ms -> filter_unit unit i ms = Raised AttributeError.
Proof.
  intros H. revert i. induction H as [m rest Hm|m rest _ IH]; intros i; simpl.
  - unfold str_upper. destruct (get m "unit" (VStr "")) as [| | |u|] eqn:Hu;
      try reflexivity.
    exfalso. apply Hm. now exists u.
  - unfold str_upper at 1. destruct (get m "unit" (VStr "")); try reflexivity.
    simpl. now rewrite IH.
Qed.

Lemma filter_unit_returns unit i ms :
  Forall text_unit ms -> exists refs, filter_unit unit i ms = Returned refs.
Proof.
  intros H. revert i. induction H as [|m rest [u Hu] _ IH]; intros i; simpl; [eauto|].
  rewrite Hu. simpl. destruct (IH (S i)) as [refs ->]. simpl. eauto.
Qed.

Lemma deref_take store refs n :
  (forall r, r ∈ refs -> is_Some (store !! r)) ->
  deref store (firstn n refs) = firstn n (deref store refs).
Proof.
  revert n. induction refs as [|r rest IH]; intros n Hall.
  - now destruct n.
  - destruct n as [|n]; [reflexivity|]. unfold deref in *. simpl.
    destruct (Hall r ltac:(left)) as [m ->]. simpl. f_equal.
    apply IH. intros r' Hr'. apply Hall. now right.
Qed.

(** X14: without a query (or with the empty one), on records whose units are
    text, [retrieve_by_unit] returns the records of the unit, compared by
    their upper-case forms, in storage order and cut as the slice [[:top_k]]
    cuts them; it writes nothing. *)
Theorem retrieve_by_unit_unranked_result (self : RAGSystem) (unit : string) (top_k : Z) :
  Forall text_unit (metadata self) ->
  by_unit self unit None top_k
  = (Returned (py_slice_to (List.filter (unit_matches unit) (metadata self)) top_k), self)
  /\ by_unit self unit (Some "") top_k = by_unit self unit None top_k.
Proof.
  intros Htext. unfold retrieve_by_unit.
  destruct (filter_unit_returns unit 0 (metadata self) Htext) as [refs Hrefs].
  rewrite Hrefs.
  destruct (filter_unit_deref unit [] (metadata self) refs Hrefs) as [Hd Hl].
  simpl in Hd.
  destruct (filter_unit_refs _ _ _ _ Hrefs) as [_ Hin].
  split; [|now destruct refs].
  destruct refs as [|r refs].
  - simpl in Hl. destruct (List.filter _ _); [|discriminate].
    unfold py_slice_to. now destruct (top_k <? 0)%Z, (Z.to_nat _).
  - f_equal. f_equal. unfold py_slice_to. rewrite <- Hl, <- Hd.
    assert (Hsome : forall r', r' ∈ r :: refs -> is_Some (metadata self !! r')).
    { intros r' Hr'. destruct (Hin r' Hr') as (m & Hm & _).
      rewrite Nat.sub_0_r in Hm. eauto. }
    destruct (top_k <? 0)%Z; now rewrite deref_take by exact Hsome.
Qed.

(** X15: when a stored record has a unit that is not text (a number, or
    [None]), [retrieve_by_unit] raises [AttributeError] for every unit, query
    and [top_k], and writes nothing. *)
Theorem retrieve_by_unit_bad_unit (self : RAGSystem) (unit : string)
    (query : option string) (top_k : Z) :
  Exists (fun m => ~ text_unit m) (metadata self) ->
  by_unit self unit query top_k = (Raised AttributeError, self).
Proof.
  intros H. unfold retrieve_by_unit. now rewrite (filter_unit_raises unit 0 _ H).
Qed.

(** X16: when no stored record is of the unit, [retrieve_by_unit] returns the
    empty list and leaves the system as it was, for every query: the
    embedding provider is not consulted, so its failures do not matter. *)
Theorem retrieve_by_unit_no_match (self : RAGSystem) (unit : string)
    (query : option string) (top_k : Z) :
  Forall text_unit (metadata self) ->
  List.filter (unit_matches unit) (metadata self) = [] ->
  by_unit self unit query top_k = (Returned [], self).
Proof.
  intros Htext Hnone. unfold retrieve_by_unit.
  destruct (filter_unit_returns unit 0 (metadata self) Htext) as [refs Hrefs].
  rewrite Hrefs.
  destruct (filter_unit_deref unit [] (metadata self) refs Hrefs) as [_ Hl].
  rewrite Hnone in Hl. now destruct refs.
Qed.

End UnitProperties.

(** The second record is the first one but for its similarity score. *)
Definition same_but_score (m m' : Doc) : Prop :=
  forall key, key <> "similarity_score" -> m' !! key = m !! key.

(** The record carries a similarity score that is a float. *)
Definition has_score (m : Doc) : Prop :=
  exists s, m !! "similarity_score" = Some (VFloat s).

Lemma deref_Forall (P : Doc -> Prop) store refs :
  (forall r m, r ∈ refs -> store !! r = Some m -> P m) -> Forall P (deref store refs).
Proof.
  induction refs as [|r rest IH]; intros H; unfold deref in *; simpl; [constructor|].
  destruct (store !! r) as [m|] eqn:Hm; simpl.
  - constructor; [apply (H r m); [left|exact Hm]|].
    apply IH. intros r' m' Hr'. apply H. now right.
  - apply IH. intros r' m' Hr'. apply H. now right.
Qed.

Lemma deref_length store refs : (length (deref store refs) <= length refs)%nat.
Proof.
  induction refs as [|r rest IH]; unfold deref in *; [simpl; lia|].
  cbn [omap list_omap]. destruct (store !! r); cbn [length]; lia.
Qed.

Section RankedProperties.

Variable embedding_dim : nat.
Variable encode : string -> outcome Vec.

Local Abbreviation by_unit := (retrieve_by_unit embedding_dim encode).
Local Abbreviation score := (score_units embedding_dim encode).

Lemma score_units_frame query_embedding refs store scored store' :
  score query_embedding refs store = (scored, store') ->
  length store' = length store
  /\ (forall i m, store !! i = Some m ->
        exists m', store' !! i = Some m' /\ same_but_score m m'
                   /\ (has_score m -> has_score m')).
Proof.
  revert store. induction refs as [|r rest IH]; intros store; simpl.
  - intros [= <- <-]. split; [reflexivity|]. intros i m Hm. exists m.
    split; [exact Hm|]. split; [now intros key _|auto].
  - destruct (store !! r) as [q|] eqn:Hq.
    2:{ intros [= <- <-]. split; [reflexivity|]. intros i m Hm. exists m.
        split; [exact Hm|]. split; [now intros key _|auto]. }
    destruct (_ ≫= _) as [s|e].
    2:{ intros [= <- <-]. split; [reflexivity|]. intros i m Hm. exists m.
        split; [exact Hm|]. split; [now intros key _|auto]. }
    intros Hrun. destruct (IH _ Hrun) as [Hlen Hframe].
    rewrite length_insert in Hlen. split; [exact Hlen|].
    intros i m Hm. destruct (decide (i = r)) as [->|Hne].
    + rewrite Hq in Hm. injection Hm as <-.
      destruct (Hframe r (<["similarity_score" := VFloat s]> q)) as (m' & Hm' & Hsame & Hs).
      { apply list_lookup_insert_eq. eapply lookup_lt_Some, Hq. }
      exists m'. split; [exact Hm'|]. split.
      * intros key Hkey. rewrite (Hsame key Hkey). now apply lookup_insert_ne.
      * intros _. apply Hs. exists s. apply lookup_insert_eq.
    + apply Hframe. now rewrite list_lookup_insert_ne.
Qed.

Lemma score_units_scored query_embedding refs store store' u :
  score query_embedding refs store = (Returned u, store') ->
  forall r, r ∈ refs -> exists m', store' !! r = Some m' /\ has_score m'.
Proof.
  revert store. induction refs as [|r rest IH]; intros store; simpl.
  - intros _ r Hr. inversion Hr.
  - destruct (store !! r) as [q|] eqn:Hq; [|discriminate].
    destruct (_ ≫= _) as [s|e]; [|discriminate].
    intros Hrun r' Hr'. apply elem_of_cons in Hr' as [->|Hr']; [|eapply IH; eauto].
    destruct (score_units_frame _ _ _ _ _ Hrun) as [_ Hframe].
    destruct (Hframe r (<["similarity_score" := VFloat s]> q)) as (m' & Hm' & _ & Hs).
    { apply list_lookup_insert_eq. eapply lookup_lt_Some, Hq. }
    exists m'. split; [exact Hm'|]. apply Hs. exists s. apply lookup_insert_eq.
Qed.

Lemma same_but_score_unit unit m m' :
  same_but_score m m' -> unit_matches unit m' = unit_matches unit m.
Proof.
  intros H. unfold unit_matches, get. now rewrite (H "unit") by discriminate.
Qed.

(** X17: whatever its arguments and its outcome, [retrieve_by_unit] leaves
    the index, the paths and the number of stored records as they were, and
    in every stored record every key other than ["similarity_score"] keeps
    its value. *)
Theorem retrieve_by_unit_frame (self : RAGSystem) (unit : string)
    (query : option string) (top_k : Z) :
  let self' := snd (by_unit self unit query top_k) in
  faiss_index self' = faiss_index self
  /\ index_path self' = index_path self
  /\ metadata_path self' = metadata_path self
  /\ length (metadata self') = length (metadata self)
  /\ (forall i m, metadata self !! i = Some m ->
        exists m', metadata self' !! i = Some m' /\ same_but_score m m').
Proof.
  assert (Hsame : forall s : RAGSystem,
            s = self ->
            faiss_index s = faiss_index self
            /\ index_path s = index_path self /\ metadata_path s = metadata_path self
            /\ length (metadata s) = length (metadata self)
            /\ (forall i m, metadata self !! i = Some m ->
                  exists m', metadata s !! i = Some m' /\ same_but_score m m')).
  { intros s ->. repeat split; try reflexivity.
    intros i m Hm. exists m. split; [exact Hm|now intros key _]. }
  cbv zeta. unfold retrieve_by_unit.
  destruct (filter_unit unit 0 (metadata self)) as [[|r refs]|]; try now apply Hsame.
  destruct query as [[|c q]|]; try now apply Hsame.
  destruct (embed_text _ _ _) as [query_embedding|]; [|now apply Hsame].
  destruct (score_units _ _ query_embedding (r :: refs) (metadata self))
    as [scored store] eqn:Hrun.
  destruct (score_units_frame _ _ _ _ _ Hrun) as [Hlen Hframe].
  assert (Hstore : forall i m, metadata self !! i = Some m ->
            exists m', store !! i = Some m' /\ same_but_score m m').
  { intros i m Hm. destruct (Hframe i m Hm) as (m' & ? & ? & _). eauto. }
  destruct scored; simpl; auto 10.
Qed.

(** X18: when [retrieve_by_unit] returns, every record it returns is of the
    unit asked for (the upper-case forms are equal), there are at most
    [top_k] of them when [top_k >= 0], and with a query every one of them
    carries a similarity score. *)
Theorem retrieve_by_unit_in_unit (self self' : RAGSystem) (unit : string)
    (query : option string) (top_k : Z) (results : list Doc) :
  by_unit self unit query top_k = (Returned results, self') ->
  Forall (fun r => unit_matches unit r = true) results
  /\ ((0 <= top_k)%Z -> (Z.of_nat (length results) <= top_k)%Z)
  /\ (query <> None -> query <> Some "" -> Forall has_score results).
Proof.
  unfold retrieve_by_unit.
  destruct (filter_unit unit 0 (metadata self)) as [refs|] eqn:Hrefs; [|discriminate].
  destruct (filter_unit_refs _ _ _ _ Hrefs) as [_ Hin].
  assert (Hstored : forall r, r ∈ refs ->
            exists m, metadata self !! r = Some m /\ unit_matches unit m = true).
  { intros r Hr. destruct (Hin r Hr) as (m & Hm & _ & Hmatch).
    rewrite Nat.sub_0_r in Hm. eauto. }
  assert (Hbound : forall store (l : list nat),
            (0 <= top_k)%Z ->
            (Z.of_nat (length (deref store (py_slice_to l top_k))) <= top_k)%Z).
  { intros store l Hk. pose proof (deref_length store (py_slice_to l top_k)).
    pose proof (proj2 (py_slice_to_sublist l top_k) Hk). lia. }
  assert (Hunranked :
            (Returned (deref (metadata self) (py_slice_to refs top_k)), self)
            = (Returned results, self') ->
            Forall (fun r => unit_matches unit r = true) results
            /\ ((0 <= top_k)%Z -> (Z.of_nat (length results) <= top_k)%Z)).
  { intros [= <- <-]. split; [|apply Hbound].
    apply deref_Forall. intros r m Hr Hm.
    apply (proj1 (py_slice_to_sublist refs top_k)) in Hr.
    destruct (Hstored r Hr) as (m0 & Hm0 & Hmatch). congruence. }
  destruct refs as [|r0 refs0] eqn:Erefs.
  { intros [= <- <-]. split; [constructor|]. split; [simpl; lia|constructor]. }
  rewrite <- Erefs in *. clear Erefs.
  destruct query as [[|c q]|].
  - intros H. destruct (Hunranked H). split; [assumption|]. split; [assumption|].
    intros _ Hq. congruence.
  - destruct (embed_text _ _ _) as [query_embedding|]; [|discriminate].
    destruct (score_units _ _ query_embedding refs (metadata self))
      as [[u|e] store] eqn:Hrun; [|discriminate].
    intros [= <- <-].
    destruct (score_units_frame _ _ _ _ _ Hrun) as [_ Hframe].
    pose proof (score_units_scored _ _ _ _ _ Hrun) as Hscored.
    assert (Hsub : forall r, r ∈ py_slice_to (stable_sort
                      (fun a b => PrimFloat.leb (sort_key store b) (sort_key store a)) refs)
                      top_k -> r ∈ refs).
    { intros r Hr. apply (proj1 (py_slice_to_sublist _ top_k)) in Hr.
      now rewrite stable_sort_perm in Hr. }
    split; [|split; [apply Hbound|]].
    + apply deref_Forall. intros r m Hr Hm. apply Hsub in Hr.
      destruct (Hstored r Hr) as (m0 & Hm0 & Hmatch).
      destruct (Hframe r m0 Hm0) as (m' & Hm' & Hsame & _).
      rewrite Hm in Hm'. injection Hm' as <-.
      now rewrite (same_but_score_unit unit m0 m Hsame).
    + intros _ _. apply deref_Forall. intros r m Hr Hm. apply Hsub in Hr.
      destruct (Hscored r Hr) as (m' & Hm' & Hs). congruence.
  - intros H. destruct (Hunranked H). split; [assumption|]. split; [assumption|].
    intros Hq. congruence.
Qed.

End RankedProperties.

(** ** Retrieval, continued *)

(** The similarity [retrieve_notes] computes from a distance, in [float32],
    and the one it computes for the padding of a search (2^-128). *)
Definition similarity_of (dist : float) : float := div32 1 (add32 1 dist).
Definition padding_similarity : float := similarity_of FLT_MAX.

(** The rows of a search as one list of (distance, label) pairs: the stored
    vectors that were found, then the padding. *)
Lemma search_row ix x k distances indices :
  search ix x k = Returned (distances, indices) ->
  exists nearest pad,
    distances = map fst (nearest ++ repeat (FLT_MAX, (-1)%Z) pad)
    /\ indices = map snd (nearest ++ repeat (FLT_MAX, (-1)%Z) pad)
    /\ (length nearest <= ntotal ix)%nat
    /\ (forall p, p ∈ nearest ->
          exists i v, xb ix !! i = Some v /\ p = (l2 x v, Z.of_nat i)).
Proof.
  unfold search.
  destruct (negb _); [discriminate|]. destruct (k <=? 0)%Z; [discriminate|].
  intros [= <- <-]. eexists _, _. split; [reflexivity|]. split; [reflexivity|].
  assert (Henum : forall (l : list Vec) n p,
            p ∈ enumerate_from n l -> exists i, l !! i = Some (snd p) /\ fst p = (n + i)%nat).
  { induction l as [|a l IH]; intros n p Hp; simpl in Hp; [inversion Hp|].
    apply elem_of_cons in Hp as [->|Hp].
    - exists 0%nat. simpl. split; [reflexivity|lia].
    - destruct (IH _ _ Hp) as (i & Hi & Hn). exists (S i). simpl. split; [exact Hi|lia]. }
  assert (Hlen : forall (l : list Vec) n, length (enumerate_from n l) = length l).
  { induction l as [|a l IH]; intros n; simpl; [reflexivity|]. now rewrite IH. }
  split.
  - rewrite length_take. etransitivity; [apply Nat.le_min_r|].
    rewrite (Permutation_length (stable_sort_perm _ _)), length_map, Hlen.
    reflexivity.
  - intros p Hp. apply subseteq_take in Hp. rewrite stable_sort_perm in Hp.
    apply list_elem_of_fmap in Hp as ([i v] & -> & Hiv).
    destruct (Henum _ _ _ Hiv) as (j & Hj & Hn). simpl in *. subst i.
    exists j, v. auto.
Qed.

Section NotesProperties.

Variable embedding_dim : nat.
Variable encode : string -> outcome Vec.

Local Abbreviation notes := (retrieve_notes embedding_dim encode).

Lemma combine_rows (row : list (float * Z)) :
  combine (map snd row) (map (fun dist => div32 1 (add32 1 dist)) (map fst row))
  = map (fun p => (snd p, similarity_of (fst p))) row.
Proof. induction row as [|p row IH]; simpl; [reflexivity|]. now rewrite IH. Qed.

(** Pairs that fail the test of the loop leave no trace. *)
Lemma build_results_rejected self distances indices thr pairs rejected :
  Forall (fun p => PrimFloat.leb (round32 thr) (snd p) = false) rejected ->
  build_results self distances indices thr (pairs ++ rejected)
  = build_results self distances indices thr pairs.
Proof.
  intros Hrej. induction pairs as [|[idx sim] rest IH]; simpl.
  - induction Hrej as [|[idx sim] l Hp _ IH]; simpl; [reflexivity|].
    simpl in Hp. rewrite Hp, andb_false_r. exact IH.
  - now rewrite IH.
Qed.

(** X19: under a threshold that, taken to [float32], the similarity of the
    padding does not reach (the [float32] 1 / (1 + FLT_MAX), which is 2^-128,
    about 2.9e-39: the default 0.3 is such a threshold), [retrieve_notes]
    returns at most as many records as the index holds vectors, however large
    [top_k] is. *)
Theorem retrieve_notes_at_most_stored (self : RAGSystem) (query : string) (top_k : Z)
    (similarity_threshold : float) :
  PrimFloat.leb (round32 similarity_threshold) padding_similarity = false ->
  (length (notes self query top_k similarity_threshold) <= index_size self)%nat.
Proof.
  intros Hpad. unfold retrieve_notes, index_size.
  destruct (faiss_index self) as [ix|]; [|simpl; lia].
  destruct (_ =? _)%nat; [simpl; lia|].
  destruct (embed_text _ _ _) as [v|]; [|simpl; lia]. simpl.
  destruct (search ix (astype32 v) top_k) as [[distances indices]|] eqn:Hs; [|simpl; lia].
  simpl. destruct (search_row _ _ _ _ _ Hs) as (nearest & pad & -> & -> & Hlen & _).
  rewrite combine_rows, (map_app (fun p => (snd p, similarity_of (fst p)))),
    build_results_rejected.
  - destruct (build_results _ _ _ _ _) as [results|] eqn:Hb; [|simpl; lia].
    simpl. destruct (build_results_kept _ _ _ _ _ _ Hb) as [Hle _].
    rewrite length_map in Hle. lia.
  - apply Forall_forall. intros p Hp.
    apply list_elem_of_fmap in Hp as (p0 & -> & Hp0).
    apply list_elem_of_In, repeat_spec in Hp0. subst p0. exact Hpad.
Qed.

(** X20: every record [retrieve_notes] returns is a stored record with two
    keys set: it agrees with a record of the store on every other key, and
    holds a float under ["similarity_score"] and under ["distance"]. *)
Theorem retrieve_notes_annotated_copies (self : RAGSystem) (query : string) (top_k : Z)
    (similarity_threshold : float) :
  Forall (fun r =>
            exists m s d,
              m ∈ metadata self
              /\ (forall key, key <> "similarity_score" -> key <> "distance" ->
                              r !! key = m !! key)
              /\ r !! "similarity_score" = Some (VFloat s)
              /\ r !! "distance" = Some (VFloat d))
         (notes self query top_k similarity_threshold).
Proof.
  eapply Forall_impl; [apply retrieve_notes_copies|].
  intros r (m & s & d & Hm & ->). exists m, s, d. split; [exact Hm|]. split; [|split].
  - intros key H1 H2. now rewrite !lookup_insert_ne by congruence.
  - rewrite lookup_insert_ne by discriminate. apply lookup_insert_eq.
  - apply lookup_insert_eq.
Qed.

End NotesProperties.

Lemma index_of_lookup x row n : index_of x row = Returned n -> row !! n = Some x.
Proof.
  revert n. induction row as [|y r IH]; intros n; simpl; [discriminate|].
  destruct (Z.eqb_spec y x) as [->|_].
  - now intros [= <-].
  - destruct (index_of x r) as [m|]; [|discriminate]. simpl.
    intros [= <-]. now apply IH.
Qed.

Lemma py_index_nat {A : Type} (l : list A) n a :
  py_index l (Z.of_nat n) = Returned a -> l !! n = Some a.
Proof.
  unfold py_index. destruct (Z.ltb_spec (Z.of_nat n) 0); [lia|].
  destruct (Z.ltb_spec (Z.of_nat n) 0); [lia|].
  rewrite Nat2Z.id. destruct (l !! n); [now intros [= <-]|discriminate].
Qed.

Lemma lookup_map {A B : Type} (f : A -> B) (l : list A) n :
  map f l !! n = f <$> l !! n.
Proof. revert n. induction l as [|a l IH]; intros [|n]; simpl; auto. Qed.

Section ScoreProperties.

Variable embedding_dim : nat.
Variable encode : string -> outcome Vec.

(** The score and the distance of a record belong together. *)
Definition score_of_distance (r : Doc) : Prop :=
  exists s d,
    r !! "similarity_score" = Some (VFloat s)
    /\ r !! "distance" = Some (VFloat d)
    /\ s = similarity_of d.

Lemma build_results_related self (row : list (float * Z)) thr pairs results :
  (forall p p', p ∈ row -> p' ∈ row -> snd p = snd p' -> fst p = fst p') ->
  Forall (fun pair => exists p, p ∈ row /\ fst pair = snd p
                                /\ snd pair = similarity_of (fst p)) pairs ->
  build_results self (map fst row) (map snd row) thr pairs = Returned results ->
  Forall score_of_distance results.
Proof.
  intros Hfun Hpairs. revert results.
  induction Hpairs as [|[idx sim] rest (p & Hp & Hidx & Hsim) _ IH]; intros results;
    simpl.
  - intros [= <-]. constructor.
  - simpl in Hidx, Hsim. destruct (_ && _).
    + destruct (py_index (metadata self) idx) as [m|]; [|discriminate]. simpl.
      destruct (index_of idx (map snd row)) as [pos|] eqn:Hpos; [|discriminate]. simpl.
      destruct (py_index (map fst row) _) as [dist|] eqn:Hdist; [|discriminate]. simpl.
      destruct (build_results self _ _ thr rest) as [rs|]; [|discriminate].
      simpl. intros [= <-]. constructor; [|now apply IH].
      exists sim, dist. split; [|split].
      * rewrite lookup_insert_ne by discriminate. apply lookup_insert_eq.
      * apply lookup_insert_eq.
      * apply index_of_lookup in Hpos. apply py_index_nat in Hdist.
        rewrite lookup_map in Hpos. rewrite lookup_map in Hdist.
        destruct (row !! pos) as [p'|] eqn:Hp'; [|discriminate].
        simpl in Hpos, Hdist. injection Hpos as Hpos. injection Hdist as <-.
        rewrite Hsim. f_equal. symmetry. apply Hfun.
        -- eapply list_elem_of_lookup_2, Hp'.
        -- exact Hp.
        -- congruence.
    + apply IH.
Qed.

(** X21: in every record [retrieve_notes] returns, the similarity score is
    the one computed in [float32] from the distance stored beside it: the
    [float32] quotient of 1 by the [float32] sum [1 + distance]. *)
Theorem retrieve_notes_score_of_distance (self : RAGSystem) (query : string) (top_k : Z)
    (similarity_threshold : float) :
  Forall score_of_distance
         (retrieve_notes embedding_dim encode self query top_k similarity_threshold).
Proof.
  unfold retrieve_notes.
  destruct (faiss_index self) as [ix|]; [|constructor].
  destruct (_ =? _)%nat; [constructor|].
  destruct (embed_text _ _ _) as [v|]; [|constructor]. simpl.
  destruct (search ix (astype32 v) top_k) as [[distances indices]|] eqn:Hs; [|constructor].
  simpl. destruct (search_row _ _ _ _ _ Hs) as (nearest & pad & -> & -> & _ & Hnear).
  rewrite combine_rows.
  destruct (build_results _ _ _ _ _) as [results|] eqn:Hb; [|constructor].
  simpl. eapply build_results_related; [| |exact Hb].
  - assert (Hcase : forall p, p ∈ nearest ++ repeat (FLT_MAX, (-1)%Z) pad ->
              (exists i w, xb ix !! i = Some w /\ p = (l2 (astype32 v) w, Z.of_nat i))
              \/ p = (FLT_MAX, (-1)%Z)).
    { intros p Hp. apply elem_of_app in Hp as [Hp|Hp]; [left; now apply Hnear|].
      right. now apply list_elem_of_In, repeat_spec in Hp. }
    intros p p' Hp Hp' Hlabel.
    destruct (Hcase p Hp) as [(i & w & Hw & ->)| ->],
             (Hcase p' Hp') as [(i' & w' & Hw' & ->)| ->]; simpl in *;
      try lia; [|reflexivity].
    apply Nat2Z.inj in Hlabel. subst i'. congruence.
  - apply Forall_forall. intros pair Hpair.
    apply list_elem_of_fmap in Hpair as (p & -> & Hp). exists p. auto.
Qed.

End ScoreProperties.

(** ** The orchestrator, continued *)

Lemma score_table_bounds :
  forallb (fun o => PrimFloat.leb 0 (observation_score o)
                    && PrimFloat.leb (observation_score o) 1) observations = true.
Proof. vm_compute. reflexivity. Qed.

(** X22: every confidence [should_use_rag] returns lies between 0 and 1. *)
Theorem confidence_bounds (thr : float) (query : string) :
  PrimFloat.leb 0 (snd (should_use_rag thr query)) = true
  /\ PrimFloat.leb (snd (should_use_rag thr query)) 1 = true.
Proof.
  rewrite should_use_rag_score_of, score_of_length_class.
  pose proof score_table_bounds as T. rewrite forallb_forall in T.
  specialize (T _ (observation_In (length (split query)) _ (search_camel query)
                     (search_acronym query) (specific query)
                     (keyword_count_le query))).
  now apply andb_true_iff in T.
Qed.

Section ContextMonotone.

Variable float_repr : float -> string.
Variable float_percent : float -> string.
Variable tags_repr : list (string * string) -> string.


End ContextMonotone.

Section AnswerProperties.

Variable embedding_dim : nat.
Variable encode : string -> outcome Vec.
Variable float_repr : float -> string.
Variable float_percent : float -> string.
Variable tags_repr : list (string * string) -> string.
Variable Client : Type.
Variable mcp_answer : Client -> string -> option string -> string -> option string * Client.

Local Abbreviation answer :=
  (answer_question embedding_dim encode float_repr float_percent tags_repr Client mcp_answer).
Local Abbreviation batch_from :=
  (batch_loop embedding_dim encode float_repr float_percent tags_repr Client mcp_answer).
Local Abbreviation batch :=
  (batch_answer_questions embedding_dim encode float_repr float_percent tags_repr Client
     mcp_answer).

(** The decision [answer_question] acts on. *)
Definition decided (self : MCPOrchestrator) (query : string) (use_rag : option bool) : bool :=
  match use_rag with
  | None => fst (should_use_rag (use_rag_threshold self) query)
  | Some b => b
  end.

(** X24: when the decision is against retrieval, or the orchestrator has no
    retrieval system, or that system has no index or no record,
    [answer_question] sends the query itself, without context, to the
    backend, and returns the backend's answer as it is. *)
Theorem answer_question_plain (self : MCPOrchestrator) (client : Client)
    (query mode : string) (use_rag : option bool) (top_k : Z) :
  decided self query use_rag = false
  \/ rag_system self = None
  \/ (exists rag, rag_system self = Some rag
                  /\ (faiss_index rag = None \/ metadata rag = [])) ->
  answer self client query mode use_rag top_k
  = (Returned (fst (mcp_answer client query None mode)),
     snd (mcp_answer client query None mode)).
Proof.
  intros H. unfold answer_question. fold (decided self query use_rag).
  destruct (mcp_answer client query None mode) as [a c] eqn:E. simpl.
  destruct (decided self query use_rag); [|now rewrite E].
  destruct H as [H|[H|(rag & Hrag & H)]]; [discriminate| |].
  - rewrite H. now rewrite E.
  - rewrite Hrag.
    replace (retrieve_notes embedding_dim encode rag query top_k 0.3) with (@nil Doc).
    + now rewrite E.
    + symmetry. destruct H as [H|H].
      * now apply retrieve_notes_unbuilt.
      * now apply retrieve_notes_no_records.
Qed.

(** The loop from a dictionary is the loop from the empty one, laid over
    the dictionary. *)
Lemma batch_loop_union self mode use_rag queries client
    (results : gmap string (option string)) :
  batch_from self client queries mode use_rag results
  = match batch_from self client queries mode use_rag ∅ with
    | (Returned m, client') => (Returned (m ∪ results), client')
    | (Raised e, client') => (Raised e, client')
    end.
Proof.
  revert client results. induction queries as [|q rest IH]; intros client results.
  - simpl. now rewrite (left_id_L ∅ (∪)).
  - cbn [batch_loop].
    destruct (answer self client q mode (Some use_rag) 3) as [[a|e] c]; [|reflexivity].
    rewrite (IH c (<[q := a]> results)), (IH c (<[q := a]> ∅)).
    destruct (batch_from self c rest mode use_rag ∅) as [[m|e] c']; [|reflexivity].
    f_equal. f_equal.
    rewrite insert_empty, (insert_union_singleton_l results), (assoc_L (∪)).
    reflexivity.
Qed.

Lemma batch_loop_app self mode use_rag pre post client
    (results : gmap string (option string)) :
  batch_from self client (pre ++ post) mode use_rag results
  = match batch_from self client pre mode use_rag results with
    | (Returned m, client') => batch_from self client' post mode use_rag m
    | (Raised e, client') => (Raised e, client')
    end.
Proof.
  revert client results. induction pre as [|q rest IH]; intros client results.
  - reflexivity.
  - cbn [batch_loop app].
    destruct (answer self client q mode (Some use_rag) 3) as [[a|e] c]; [|reflexivity].
    apply IH.
Qed.

(** X25: batches compose.  The batch of two lists of queries one after the
    other is the batch of the first, then the batch of the second from the
    client state the first left; the answers of the second lie over those of
    the first. *)
Theorem batch_of_concatenation (self : MCPOrchestrator) (client client1 client2 : Client)
    (pre post : list string) (mode : string) (use_rag : bool)
    (first second : gmap string (option string)) :
  batch self client pre mode use_rag = (Returned first, client1) ->
  batch self client1 post mode use_rag = (Returned second, client2) ->
  batch self client (pre ++ post) mode use_rag = (Returned (second ∪ first), client2).
Proof.
  unfold batch_answer_questions. intros H1 H2.
  rewrite batch_loop_app, H1, batch_loop_union, H2. reflexivity.
Qed.

(** X26: a batch stops at the first query whose answer raises: it raises the
    same exception, the answers collected so far are lost, and the queries
    after it are not sent. *)
Theorem batch_stops_at_failure (self : MCPOrchestrator) (client client1 client2 : Client)
    (pre post : list string) (q mode : string) (use_rag : bool)
    (before : gmap string (option string)) (e : exn) :
  batch self client pre mode use_rag = (Returned before, client1) ->
  answer self client1 q mode (Some use_rag) 3 = (Raised e, client2) ->
  batch self client (pre ++ q :: post) mode use_rag = (Raised e, client2).
Proof.
  unfold batch_answer_questions. intros H1 H2.
  rewrite batch_loop_app, H1. cbn [batch_loop]. now rewrite H2.
Qed.

End AnswerProperties.

(** *** The acronym test *)

Fixpoint all_upper (s : string) : bool :=
  match s with
  | EmptyString => true
  | String c r => is_upper c && all_upper r
  end.

(** No word character stands right before the end of [pre]; [prev_word]
    speaks for the character before an empty [pre]. *)
Definition boundary_before (prev_word : bool) (pre : string) : Prop :=
  (pre = EmptyString /\ prev_word = false)
  \/ exists pre' c, pre = pre' +:+ String c EmptyString /\ is_word c = false.

(** No word character stands at the start of [post]. *)
Definition boundary_after (post : string) : Prop :=
  match post with
  | EmptyString => True
  | String c _ => is_word c = false
  end.

(** What [\b[A-Z]{2,}\b] looks for: two or more upper-case letters in a row
    with no word character right before or right after them. *)
Definition standalone_capitals (prev_word : bool) (q : string) : Prop :=
  exists pre run post,
    q = pre +:+ (run +:+ post)
    /\ (2 <= String.length run)%nat /\ all_upper run = true
    /\ boundary_before prev_word pre /\ boundary_after post.

Lemma is_upper_word c : is_upper c = true -> is_word c = true.
Proof. intros H. unfold is_word. now rewrite H. Qed.

Lemma upper_run_split s :
  exists run,
    s = run +:+ snd (upper_run s)
    /\ String.length run = fst (upper_run s) /\ all_upper run = true
    /\ match snd (upper_run s) with
       | EmptyString => True
       | String c _ => is_upper c = false
       end.
Proof.
  induction s as [|c r (run & Hs & Hlen & Hall & Hrest)].
  - exists EmptyString. simpl. auto.
  - cbn [upper_run]. destruct (is_upper c) eqn:Hc.
    + destruct (upper_run r) as [n rest]. simpl in *.
      exists (String c run). simpl. rewrite Hc, Hall, Hlen. subst r. auto.
    + exists EmptyString. simpl. rewrite Hc. auto.
Qed.

Lemma upper_run_join run post :
  all_upper run = true ->
  match post with EmptyString => True | String c _ => is_upper c = false end ->
  upper_run (run +:+ post) = (String.length run, post).
Proof.
  intros Hall Hpost. induction run as [|c r IH].
  - destruct post as [|c p]; [reflexivity|]. simpl. now rewrite Hpost.
  - simpl in Hall. apply andb_true_iff in Hall as [Hc Hr].
    change (String c r +:+ post) with (String c (r +:+ post)).
    cbn [upper_run]. rewrite Hc, (IH Hr). reflexivity.
Qed.

Lemma search_acronym_from_iff prev_word s :
  search_acronym_from prev_word s = true <-> standalone_capitals prev_word s.
Proof.
  split.
  - revert prev_word. induction s as [|c r IH]; intros b; [discriminate|].
    cbn [search_acronym_from]. intros H. apply orb_true_iff in H as [H|H].
    + apply andb_true_iff in H as [Hb Hhere]. unfold acronym_here in Hhere.
      destruct (upper_run_split (String c r)) as (run & Hs & Hlen & Hall & _).
      destruct (upper_run (String c r)) as [n rest]. cbn [fst snd] in *.
      apply andb_true_iff in Hhere as [Hn Hrest]. apply Nat.leb_le in Hn.
      exists EmptyString, run, rest. split; [exact Hs|]. split; [lia|].
      split; [exact Hall|]. split.
      * left. split; [reflexivity|]. now destruct b.
      * destruct rest; [exact I|]. now apply negb_true_iff.
    + destruct (IH _ H) as (pre & run & post & -> & Hlen & Hall & Hbefore & Hafter).
      exists (String c pre), run, post. split; [reflexivity|].
      split; [exact Hlen|]. split; [exact Hall|]. split; [|exact Hafter].
      right. destruct Hbefore as [[-> Hc]|(pre' & c' & -> & Hc')].
      * exists EmptyString, c. auto.
      * exists (String c pre'), c'. auto.
  - intros (pre & run & post & -> & Hlen & Hall & Hbefore & Hafter).
    revert prev_word Hbefore. induction pre as [|c pre IH]; intros b Hbefore.
    + destruct Hbefore as [[_ ->]|(pre' & c' & Hpre & _)];
        [|destruct pre'; discriminate].
      change (EmptyString +:+ (run +:+ post)) with (run +:+ post).
      assert (Hhere : acronym_here (run +:+ post) = true).
      { unfold acronym_here. rewrite upper_run_join; [|exact Hall|].
        - apply andb_true_iff. split; [now apply Nat.leb_le|].
          destruct post; [reflexivity|]. now apply negb_true_iff.
        - destruct post as [|c p]; [exact I|]. simpl in Hafter.
          destruct (is_upper c) eqn:Hc; [|reflexivity].
          apply is_upper_word in Hc. congruence. }
      destruct run as [|c run]; [simpl in Hlen; lia|].
      change (String c run +:+ post) with (String c (run +:+ post)) in *.
      cbn [search_acronym_from]. now rewrite Hhere.
    + change (String c pre +:+ (run +:+ post)) with (String c (pre +:+ (run +:+ post))).
      cbn [search_acronym_from]. rewrite IH; [apply orb_true_r|].
      destruct Hbefore as [[Hnil _]|(pre' & c' & Hpre & Hc')]; [discriminate|].
      destruct pre' as [|x pre'].
      * injection Hpre as -> ->. now left.
      * injection Hpre as -> ->. right. eauto.
Qed.

(** X27: the second technical-pattern test of [should_use_rag] adds exactly
    0.15 to the score if the query contains two or more upper-case letters
    in a row with no word character (letter, digit or underscore) right
    before or right after them, and leaves the score as it is otherwise. *)
Theorem acronym_factor_contribution (q : string) (score : float) :
  (standalone_capitals false q -> acronym_factor q score = (score + 0.15)%float)
  /\ (~ standalone_capitals false q -> acronym_factor q score = score).
Proof.
  unfold acronym_factor, search_acronym. split; intros H.
  - apply search_acronym_from_iff in H. now rewrite H.
  - destruct (search_acronym_from false q) eqn:E; [|reflexivity].
    exfalso. apply H, search_acronym_from_iff, E.
Qed.

Example standalone_capitals_sample :
  standalone_capitals false "Define OOP and explain"
  /\ ~ standalone_capitals false "course BBIT106".
Proof.
  split.
  - apply search_acronym_from_iff. reflexivity.
  - intros H. apply search_acronym_from_iff in H. discriminate H.
Qed.

(** * The question loader

    [filter_by_unit], [filter_by_year], [filter_by_course],
    [filter_by_multiple] and [search_questions] of [scripts/load_data.py],
    as functions of the loader's list of questions. *)

(** [[q for q in questions if test(q)]] with a test that may raise. *)
Fixpoint comprehension (test : Doc -> outcome bool) (questions : list Doc)
  : outcome (list Doc) :=
  match questions with
  | [] => Returned []
  | q :: rest =>
      keep ← test q;
      kept ← comprehension test rest;
      Returned (if (keep : bool) then q :: kept else kept)
  end.

Definition str_lower (v : value) : outcome string :=
  match v with
  | VStr s => Returned (PyStr.lower s)
  | _ => Raised AttributeError
  end.

(** [q.get(key, "").upper() == wanted.upper()]. *)
Definition upper_equal (key wanted : string) (q : Doc) : outcome bool :=
  u ← str_upper (get q key (VStr ""));
  Returned (bool_decide (u = PyStr.upper wanted)).

Definition filter_by_unit (questions : list Doc) (unit : string) : outcome (list Doc) :=
  comprehension (upper_equal "unit" unit) questions.

Definition filter_by_course (questions : list Doc) (course : string) : outcome (list Doc) :=
  comprehension (upper_equal "course" course) questions.

(** [search_questions]. *)
Definition search_questions (questions : list Doc) (keyword : string)
  : outcome (list Doc) :=
  let keyword_lower := PyStr.lower keyword in
  comprehension
    (fun q => text ← str_lower (get q "question" (VStr ""));
              Returned (PyStr.contains keyword_lower text))
    questions.

(** [if criterion:] on an optional string. *)
Definition given (criterion : option string) : option string :=
  match criterion with
  | None | Some EmptyString => None
  | Some s => Some s
  end.

Section Loader.

Variable float_repr : float -> string.
Variable tags_repr : list (string * string) -> string.

(** [str(q.get("year", "")) == str(year)], for a [year] that is text. *)
Definition year_equal (year : string) (q : Doc) : bool :=
  String.eqb (py_str float_repr tags_repr (get q "year" (VStr ""))) year.

Definition filter_by_year (questions : list Doc) (year : string) : outcome (list Doc) :=
  comprehension (fun q => Returned (year_equal year q)) questions.

(** [filter_by_multiple]. *)
Definition filter_by_multiple (questions : list Doc) (unit year course : option string)
  : outcome (list Doc) :=
  let filtered := questions in
  filtered ← match given unit with
             | Some unit => comprehension (upper_equal "unit" unit) filtered
             | None => Returned filtered
             end;
  filtered ← match given year with
             | Some year => comprehension (fun q => Returned (year_equal year q)) filtered
             | None => Returned filtered
             end;
  filtered ← match given course with
             | Some course => comprehension (upper_equal "course" course) filtered
             | None => Returned filtered
             end;
  Returned filtered.

End Loader.

(** ** Properties of the loader *)

(** The test [upper_equal] makes on a record whose field is text. *)
Definition field_matches (key wanted : string) (q : Doc) : bool :=
  match get q key (VStr "") with
  | VStr u => bool_decide (upper u = upper wanted)
  | _ => false
  end.

Definition text_field (key : string) (q : Doc) : Prop :=
  exists s, get q key (VStr "") = VStr s.

Lemma comprehension_pure test questions :
  comprehension (fun q => Returned (test q)) questions = Returned (List.filter test questions).
Proof.
  induction questions as [|q rest IH]; simpl; [reflexivity|].
  rewrite IH. simpl. reflexivity.
Qed.

Lemma comprehension_ext test test' questions :
  Forall (fun q => test q = test' q) questions ->
  comprehension test questions = comprehension test' questions.
Proof.
  induction 1 as [|q rest Hq _ IH]; simpl; [reflexivity|]. now rewrite Hq, IH.
Qed.

Lemma upper_equal_text key wanted questions :
  Forall (text_field key) questions ->
  comprehension (upper_equal key wanted) questions
  = Returned (List.filter (field_matches key wanted) questions).
Proof.
  intros H. rewrite <- comprehension_pure. apply comprehension_ext.
  eapply Forall_impl; [exact H|]. intros q [s Hs].
  unfold upper_equal, field_matches. now rewrite Hs.
Qed.

Lemma Forall_filter_keeps {A : Type} (P : A -> Prop) test (l : list A) :
  Forall P l -> Forall P (List.filter test l).
Proof.
  induction 1 as [|x l Hx _ IH]; simpl; [constructor|].
  destruct (test x); [constructor|]; assumption.
Qed.

Lemma filter_filter {A : Type} (f g : A -> bool) (l : list A) :
  List.filter g (List.filter f l) = List.filter (fun x => f x && g x) l.
Proof.
  induction l as [|x l IH]; simpl; [reflexivity|].
  destruct (f x); simpl; [|exact IH]. destruct (g x); now rewrite IH.
Qed.

Section LoaderProperties.

Variable float_repr : float -> string.
Variable tags_repr : list (string * string) -> string.

(** Whether a question passes a criterion that may be absent. *)
Definition passes_all (unit year course : option string) (q : Doc) : bool :=
  match given unit with Some u => field_matches "unit" u q | None => true end
  && match given year with Some y => year_equal float_repr tags_repr y q | None => true end
  && match given course with Some c => field_matches "course" c q | None => true end.

(** X28: on questions whose unit and course are text, [filter_by_multiple]
    returns, in their order, exactly the questions that pass every criterion
    that is given (a criterion that is [None] or empty is not given); with
    no criterion it returns all the questions. *)
Theorem filter_by_multiple_conjunction (questions : list Doc)
    (unit year course : option string) :
  Forall (text_field "unit") questions ->
  Forall (text_field "course") questions ->
  filter_by_multiple float_repr tags_repr questions unit year course
  = Returned (List.filter (passes_all unit year course) questions)
  /\ filter_by_multiple float_repr tags_repr questions None None None = Returned questions.
Proof.
  intros Hunit Hcourse. split; [|reflexivity].
  assert (Hall : forall l : list Doc, List.filter (fun _ => true) l = l).
  { induction l as [|x l IH]; simpl; [reflexivity|]. now rewrite IH. }
  assert (Hfield : forall key criterion (l : list Doc),
            Forall (text_field key) l ->
            match given criterion with
            | Some wanted => comprehension (upper_equal key wanted) l
            | None => Returned l
            end
            = Returned (List.filter
                (fun q => match given criterion with
                          | Some wanted => field_matches key wanted q
                          | None => true
                          end) l)).
  { intros key criterion l Hl. destruct (given criterion).
    - now apply upper_equal_text.
    - now rewrite Hall. }
  assert (Hyear : forall (l : list Doc),
            match given year with
            | Some y => comprehension (fun q => Returned (year_equal float_repr tags_repr y q)) l
            | None => Returned l
            end
            = Returned (List.filter
                (fun q => match given year with
                          | Some y => year_equal float_repr tags_repr y q
                          | None => true
                          end) l)).
  { intros l. destruct (given year).
    - apply comprehension_pure.
    - now rewrite Hall. }
  unfold filter_by_multiple, passes_all.
  rewrite (Hfield "unit" unit questions Hunit). cbn [mbind outcome_bind].
  rewrite Hyear. cbn [mbind outcome_bind].
  rewrite (Hfield "course" course) by (repeat apply Forall_filter_keeps; exact Hcourse).
  cbn [mbind outcome_bind]. rewrite !filter_filter. f_equal.
  apply filter_ext. intros q. now rewrite ?andb_assoc.
Qed.

End LoaderProperties.

(** X29: [search_questions] does not look at the case of the keyword: the
    keyword in lower case, and every keyword with the same lower-case form,
    finds what the keyword finds; and on questions whose text is text it
    returns, in their order, exactly those whose lower-cased text contains
    the lower-cased keyword. *)
Theorem search_questions_any_case (questions : list Doc) (keyword : string) :
  search_questions questions (lower keyword) = search_questions questions keyword
  /\ (forall keyword', lower keyword' = lower keyword ->
        search_questions questions keyword' = search_questions questions keyword)
  /\ (Forall (text_field "question") questions ->
      search_questions questions keyword
      = Returned (List.filter
          (fun q => match get q "question" (VStr "") with
                    | VStr text => contains (lower keyword) (lower text)
                    | _ => false
                    end) questions)).
Proof.
  unfold search_questions. rewrite lower_idempotent.
  split; [reflexivity|]. split; [now intros keyword' ->|].
  intros H. rewrite <- comprehension_pure. apply comprehension_ext.
  eapply Forall_impl; [exact H|]. intros q [s Hs]. now rewrite Hs.
Qed.

(** ** The samples again *)

Lemma pair_true {A : Type} (p : bool * A) : fst p = true -> p = (true, snd p).
Proof. destruct p as [b a]. simpl. now intros ->. Qed.

Lemma pair_false {A : Type} (p : bool * A) : fst p = false -> p = (false, snd p).
Proof. destruct p as [b a]. simpl. now intros ->. Qed.

(** The value a call returned, or [d] if it raised. *)
Definition returned_or {A : Type} (d : A) (o : outcome A) : A :=
  match o with
  | Returned a => a
  | Raised _ => d
  end.

Definition is_returned {A : Type} (o : outcome A) : bool :=
  match o with
  | Returned _ => true
  | Raised _ => false
  end.

Lemma pair_returned {A B : Type} (d : A) (p : outcome A * B) :
  is_returned (fst p) = true -> p = (Returned (returned_or d (fst p)), snd p).
Proof. destruct p as [[a|e] b]; simpl; [reflexivity|discriminate]. Qed.

Definition sample_questions : list Doc := [q_algorithms; q_network; q_dbms].

Definition sample_paths_rag : RAGSystem :=
  new_rag "data/rag_index.faiss" "data/rag_metadata.json".

Definition sample_built : RAGSystem :=
  snd (build_index axis_encode sample_paths_rag sample_questions).


(** A record whose unit is [None], and one whose question is [None]. *)
Definition q_no_unit : Doc :=
  <["unit" := VNone]> (<["question" := VStr "Define a process."]> ∅).

Definition q_no_text : Doc :=
  <["unit" := VStr "BBIT106"]> (<["question" := VNone]> ∅).

Definition far_encode (text : string) : outcome Vec :=
  Returned (if contains "algorithm" (lower text) then [3; 0] else [0; 1])%float.

Definition flawed_orchestrator : MCPOrchestrator :=
  {| rag_system :=
       Some {| faiss_index := Some {| dim := 2; xb := [[0; 1]; [3; 0]]%float |};
               metadata := [q_network; q_no_text];
               topic_cache := ∅;
               index_path := "data/rag_index.faiss";
               metadata_path := "data/rag_metadata.json" |};
     use_rag_threshold := 0.5%float |}.

Example build_index_sample :
  faiss_index sample_built = Some {| dim := 2; xb := [[1; 0]; [0; 1]; [0; 1]]%float |}
  /\ map (fun m => (m !! "question", m !! "course", m !! "question_number"))
         (metadata sample_built)
     = [ (Some (VStr "Describe two sorting algorithms."), Some (VStr "Unknown"),
          Some (VInt 0));
         (Some (VStr "Explain the OSI model."), Some (VStr "Unknown"), Some (VInt 0));
         (Some (VStr "Define normalization."), Some (VStr "Unknown"), Some (VInt 0)) ]
  /\ fst (build_index axis_encode sample_paths_rag []) = false.
Proof. vm_compute. repeat split; reflexivity. Qed.


Lemma build_index_consistent_witness :
  index_size sample_built = length sample_questions
  /\ metadata sample_built = map question_record sample_questions
  /\ index_size sample_built = length (metadata sample_built)
  /\ index_path sample_built = index_path sample_paths_rag
  /\ metadata_path sample_built = metadata_path sample_paths_rag
  /\ topic_cache sample_built = topic_cache sample_paths_rag.
Proof.
  apply (build_index_consistent axis_encode sample_paths_rag sample_built sample_questions).
  apply pair_true. vm_compute. reflexivity.
Defined.

Lemma build_index_failure_witness :
  snd (build_index failing_encode sample_rag sample_questions) = sample_rag.
Proof.
  apply (build_index_failure failing_encode sample_rag _ sample_questions).
  apply pair_false. vm_compute. reflexivity.
Defined.


Lemma initialize_without_sidecar_witness :
  exists rag,
    initialize_rag_system axis_encode false (Raised ProviderError)
      (<["data/rag_index.faiss" := FaissFile (Some (new_index 2))]> ∅)
    = (Some rag, <["data/rag_index.faiss" := FaissFile (Some (new_index 2))]> ∅)
    /\ faiss_index rag = Some (new_index 2)
    /\ metadata rag = []
    /\ forall query top_k threshold,
         retrieve_notes 2 axis_encode rag query top_k threshold = [].
Proof.
  apply (initialize_without_sidecar 2 axis_encode (Raised ProviderError)
           (<["data/rag_index.faiss" := FaissFile (Some (new_index 2))]> ∅) (new_index 2)
           [0; 1]%float).
  - vm_compute. reflexivity.
  - reflexivity.
  - reflexivity.
Defined.

(** With a provider that fails there is no system, even though the index
    file is there. *)
Example initialize_provider_failure_sample :
  initialize_rag_system failing_encode false (Returned sample_questions)
    (<["data/rag_index.faiss" := FaissFile (Some (new_index 2))]> ∅)
  = (None, <["data/rag_index.faiss" := FaissFile (Some (new_index 2))]> ∅).
Proof. now apply initialize_provider_failure with (e := ProviderError). Qed.


(** When the metadata path is a directory the save inside the
    initialization fails after it has written the index; the system is
    returned all the same, and the next initialization cannot load what was
    left. *)
Example initialize_save_failure :
  let fs : FS := <["data/rag_metadata.json" := Directory]> ∅ in
  let first := initialize_rag_system axis_encode true (Returned sample_questions) fs in
  fst first = Some sample_built
  /\ snd first !! "data/rag_index.faiss" = Some (FaissFile (faiss_index sample_built))
  /\ snd first !! "data/rag_metadata.json" = Some Directory
  /\ fst (initialize_rag_system axis_encode false (Raised ProviderError) (snd first)) = None.
Proof. vm_compute. repeat split; reflexivity. Qed.



Lemma sample_text_units : Forall text_unit (metadata sample_rag).
Proof. repeat constructor; eexists; vm_compute; reflexivity. Defined.

Lemma retrieve_by_unit_unranked_result_witness :
  retrieve_by_unit 2 axis_encode sample_rag "bbit106" None 1
  = (Returned (py_slice_to (List.filter (unit_matches "bbit106") (metadata sample_rag)) 1),
     sample_rag)
  /\ retrieve_by_unit 2 axis_encode sample_rag "bbit106" (Some "") 1
     = retrieve_by_unit 2 axis_encode sample_rag "bbit106" None 1.
Proof.
  exact (retrieve_by_unit_unranked_result 2 axis_encode sample_rag "bbit106" 1
           sample_text_units).
Defined.

(** Units are compared as their upper-case forms, which for the letters
    beyond ASCII are those of Python: e with acute accent and its capital
    are the same unit, the sharp s is [SS]. *)
Example upper_samples :
  upper "Bbit106" = upper "BBIT106"
  /\ upper (String (ascii_of_N 233) "") = [201%N]
  /\ upper (String (ascii_of_N 223) "") = upper "ss"
  /\ upper (String (ascii_of_N 255) "") = [376%N]
  /\ upper (String (ascii_of_N 181) "") = [924%N]
  /\ upper (String (ascii_of_N 247) "") = [247%N]
  /\ unit_matches ("CAF" +:+ String (ascii_of_N 201) "")
                  (<["unit" := VStr ("caf" +:+ String (ascii_of_N 233) "")]> ∅) = true.
Proof. vm_compute. repeat split; reflexivity. Qed.

Lemma retrieve_by_unit_bad_unit_witness :
  retrieve_by_unit 2 axis_encode (set_metadata sample_rag [q_algorithms; q_no_unit])
    "BBIT106" None 3
  = (Raised AttributeError, set_metadata sample_rag [q_algorithms; q_no_unit]).
Proof.
  apply (retrieve_by_unit_bad_unit 2 axis_encode
           (set_metadata sample_rag [q_algorithms; q_no_unit]) "BBIT106" None 3).
  apply Exists_cons_tl, Exists_cons_hd. intros [u Hu]. vm_compute in Hu. discriminate Hu.
Defined.

Lemma retrieve_by_unit_no_match_witness :
  retrieve_by_unit 2 failing_encode sample_rag "BBIT999" (Some "sorting") 3
  = (Returned [], sample_rag).
Proof.
  apply (retrieve_by_unit_no_match 2 failing_encode sample_rag "BBIT999"
           (Some "sorting") 3 sample_text_units).
  vm_compute. reflexivity.
Defined.

Definition sample_ranked : list Doc :=
  returned_or []
    (fst (retrieve_by_unit 2 axis_encode sample_rag "BBIT106" (Some "osi layers") 1)).

Lemma retrieve_by_unit_in_unit_witness :
  Forall (fun r => unit_matches "BBIT106" r = true) sample_ranked
  /\ ((0 <= 1)%Z -> (Z.of_nat (length sample_ranked) <= 1)%Z)
  /\ (Some "osi layers" <> None -> Some "osi layers" <> Some "" ->
      Forall has_score sample_ranked).
Proof.
  apply (retrieve_by_unit_in_unit 2 axis_encode sample_rag
           (snd (retrieve_by_unit 2 axis_encode sample_rag "BBIT106" (Some "osi layers") 1))
           "BBIT106" (Some "osi layers") 1 sample_ranked).
  apply pair_returned. vm_compute. reflexivity.
Defined.

Lemma retrieve_notes_at_most_stored_witness :
  (length (retrieve_notes 2 axis_encode sample_rag "sorting algorithms" 10 0.3)
   <= index_size sample_rag)%nat.
Proof.
  apply (retrieve_notes_at_most_stored 2 axis_encode sample_rag "sorting algorithms" 10 0.3).
  vm_compute. reflexivity.
Defined.



Lemma answer_question_plain_witness :
  answer_question 2 axis_encode plain_repr percent_2dp plain_tags nat counting_client
    {| rag_system := Some sample_paths_rag; use_rag_threshold := 0.5 |} 0%nat
    "sorting algorithms" "exam" (Some true) 3
  = (Returned (fst (counting_client 0%nat "sorting algorithms" None "exam")),
     snd (counting_client 0%nat "sorting algorithms" None "exam")).
Proof.
  apply (answer_question_plain 2 axis_encode plain_repr percent_2dp plain_tags nat
           counting_client).
  right. right. exists sample_paths_rag. split; [reflexivity|]. left. reflexivity.
Defined.

Lemma batch_of_concatenation_witness :
  batch_answer_questions 2 axis_encode plain_repr percent_2dp plain_tags nat
    counting_client sample_orchestrator 0%nat (["A"; "B"] ++ ["A"]) "exam" true
  = (Returned ({["A" := Some "answer 2"]}
               ∪ <["B" := Some "answer 1"]> {["A" := Some "answer 0"]}), 3%nat).
Proof.
  apply (batch_of_concatenation 2 axis_encode plain_repr percent_2dp plain_tags nat
           counting_client sample_orchestrator 0%nat 2%nat 3%nat ["A"; "B"] ["A"]
           "exam" true).
  - vm_compute. reflexivity.
  - vm_compute. reflexivity.
Defined.

Lemma batch_stops_at_failure_witness :
  batch_answer_questions 2 far_encode plain_repr percent_2dp plain_tags nat
    counting_client flawed_orchestrator 0%nat (["osi layers"] ++ "algorithms" :: ["osi layers"])
    "exam" true
  = (Raised TypeError, 1%nat).
Proof.
  apply (batch_stops_at_failure 2 far_encode plain_repr percent_2dp plain_tags nat
           counting_client flawed_orchestrator 0%nat 1%nat 1%nat ["osi layers"]
           ["osi layers"] "algorithms" "exam" true
           {["osi layers" := Some "answer 0"]}).
  - vm_compute. reflexivity.
  - vm_compute. reflexivity.
Defined.

Lemma filter_by_multiple_conjunction_witness :
  filter_by_multiple plain_repr plain_tags sample_questions (Some "bbit106") (Some "2020") None
  = Returned (List.filter (passes_all plain_repr plain_tags (Some "bbit106") (Some "2020") None)
                sample_questions)
  /\ filter_by_multiple plain_repr plain_tags sample_questions None None None
     = Returned sample_questions.
Proof.
  apply (filter_by_multiple_conjunction plain_repr plain_tags sample_questions
           (Some "bbit106") (Some "2020") None).
  - repeat constructor; eexists; vm_compute; reflexivity.
  - repeat constructor; eexists; vm_compute; reflexivity.
Defined.

Example loader_sample :
  let texts := fun o : outcome (list Doc) =>
    returned_or [] (o ≫= fun l => Returned (map (fun q : Doc => q !! "question") l)) in
  texts (filter_by_multiple plain_repr plain_tags sample_questions (Some "bbit106")
           (Some "2020") None)
  = [Some (VStr "Explain the OSI model.")]
  /\ texts (search_questions sample_questions "OSI") = [Some (VStr "Explain the OSI model.")]
  /\ is_returned (filter_by_unit (sample_questions ++ [q_no_unit]) "BBIT106") = false.
Proof. vm_compute. repeat split; reflexivity. Qed.
